(** * ACE Network Protocol (lib/saq/anp.py): a shallow embedding

    The module implements a binary control protocol between ACE nodes:
    framing primitives over a TCP socket ([ANPSocket]), a family of message
    classes keyed by a command id ([ANPMessage] and [ANP_CLASS_LOOKUP]) and a
    thread-per-connection server ([ACENetworkProtocolServer]).

    Python values are embedded as follows: [int] is [Z], [bytes] is
    [list byte], [str] is a list of code points, [None] results are [option],
    and a statement that may raise runs in a state-and-exception monad over
    the process state [world]. *)

From Stdlib Require Import ZArith List Bool Lia.
From Stdlib.Strings Require Import Byte.
Import ListNotations.
Local Open Scope Z_scope.

Set Implicit Arguments.

(** ** Python values *)

Definition bytes := list byte.

(** A [str] is its sequence of code points. *)
Definition pystr := list Z.

Definition len {A : Type} (l : list A) : Z := Z.of_nat (length l).

Definition bytes_eq_dec : forall a b : bytes, {a = b} + {a <> b} :=
  list_eq_dec Byte.byte_eq_dec.

Definition pystr_eq_dec : forall a b : pystr, {a = b} + {a <> b} :=
  list_eq_dec Z.eq_dec.

Definition pystr_eqb (a b : pystr) : bool :=
  if pystr_eq_dec a b then true else false.

Definition Z_of_byte (b : byte) : Z := Z.of_N (Byte.to_N b).

Definition byte_of_Z (z : Z) : byte :=
  match Byte.of_N (Z.to_N (z mod 256)) with
  | Some b => b
  | None => x00
  end.

(** [seq[i:j]] for non-negative [i], [j]. *)
Definition slice {A : Type} (l : list A) (i j : Z) : list A :=
  firstn (Z.to_nat (j - i)) (skipn (Z.to_nat i) l).

(** [buf[i:j] = data] on a bytearray, for non-negative [i], [j]: both bounds
    are clamped to the length of the buffer, an inverted range is empty, and
    the buffer grows or shrinks to hold [data]. *)
Definition slice_assign {A : Type} (buf : list A) (i j : Z) (data : list A)
  : list A :=
  let start := Z.min i (len buf) in
  let stop := Z.max start (Z.min j (len buf)) in
  firstn (Z.to_nat start) buf ++ data ++ skipn (Z.to_nat stop) buf.

(** ** Exceptions *)

(** The two texts with which the module raises [ANPException]. *)
Inductive anp_error : Type :=
| EndOfStream (bytes_left : Z)      (* expected {} more bytes but got end of stream *)
| UnknownCommand (command : Z).     (* unknown command {} *)

Inductive exn : Type :=
| ANPException (e : anp_error)
| AssertionError
| StructError            (* struct.error *)
| TypeError
| AttributeError
| ValueError
| UnicodeEncodeError
| UnicodeDecodeError
| OSError
| RuntimeError (tag : Z). (* whatever else a collaborator may raise *)

(** A statement returns, raises, or (for the loops below, which run on fuel)
    fails to finish within its fuel. *)
Inductive outcome (A : Type) : Type :=
| Return (a : A)
| Raise (e : exn)
| Timeout.

Arguments Return {A} a.
Arguments Raise {A} e.
Arguments Timeout {A}.

(** ** struct formats *)

(** Big-endian unsigned integer of [n] bytes. *)
Fixpoint pack_be (n : nat) (v : Z) : bytes :=
  match n with
  | O => []
  | S n' => pack_be n' (v / 256) ++ [byte_of_Z v]
  end.

Definition unpack_be (data : bytes) : Z :=
  fold_left (fun acc b => acc * 256 + Z_of_byte b) data 0.

(** [struct.calcsize] of [UINT_FORMAT = '!I'] and [ULONG_FORMAT = '!Q']. *)
Definition UINT_SIZE : nat := 4.
Definition ULONG_SIZE : nat := 8.

(** [struct.pack(fmt, value)]: the value has to fit the format. *)
Definition struct_pack (size : nat) (value : Z) : outcome bytes :=
  if (0 <=? value) && (value <? 256 ^ Z.of_nat size)
  then Return (pack_be size value)
  else Raise StructError.

(** [struct.unpack(fmt, data)[0]]: the buffer has to have the format's size. *)
Definition struct_unpack (size : nat) (data : bytes) : outcome Z :=
  if Nat.eqb (length data) size
  then Return (unpack_be data)
  else Raise StructError.

(** ** Module constants *)

Definition DEFAULT_PORT : Z := 41433.
Definition DEFAULT_CHUNK_SIZE : Z := 256 * 1024.
Definition LAST_CHUNK : bytes := [].

(** [io.DEFAULT_BUFFER_SIZE] of CPython. *)
Definition DEFAULT_BUFFER_SIZE : Z := 8192.

(** ** Process state *)

(** The connected socket as this process sees it.  [inbound] holds the bytes
    the peer wrote and that were not received yet; the peer closes its side
    after them.  [recv_sizes] schedules short reads: the n-th call of [recv]
    delivers at most that many bytes (at least one when bytes are pending);
    once the schedule is used up every call delivers all it was asked for.
    [send_sizes] does the same for [send]. *)
Record socket : Type := mkSocket {
  inbound : bytes;
  recv_sizes : list nat;
  outbound : bytes;
  send_sizes : list nat;
  sock_shutdown : bool;
  sock_closed : bool
}.

Record filesystem : Type := mkFs {
  fs_files : list (pystr * bytes);
  fs_dirs : list pystr
}.

(** What a message attribute may hold: [recv_message] builds every message
    with the socket object as its first argument, and a read on a closed
    stream stores [None]. *)
Inductive pyval : Type :=
| PyNone
| PyStr (s : pystr)
| PyANPSocket.

(** The message classes; a constructor carries the instance attributes. *)
Inductive ANPMessage : Type :=
| ANPCommandEXIT
| ANPCommandREGISTER
| ANPCommandOK
| ANPCommandBUSY
| ANPCommandERROR (error_message : pyval)
| ANPCommandPING (message : pyval)
| ANPCommandPONG (message : pyval)
| ANPCommandAVAILABLE
| ANPCommandCOPY_FILE (path : pyval) (source_path : pyval)
| ANPCommandPROCESS (target : pyval).

Inductive log_level : Type := DEBUG | INFO | WARNING | ERROR.

(** The logging calls of the module, by call site. *)
Inductive log_text : Type :=
| TargetFileIs (full_path : pystr)
| CreatingDirectory (dir_path : pystr)
| TargetFileExists (full_path : pystr)
| ReceivedCommand (command : ANPMessage) (client_address : pystr)
| ErrorHandlingClientRequest (e : exn)
| ErrorProcessingCommand (command : ANPMessage) (e : exn)
| ReportException.       (* saq.error.report_exception() *)

(** The functions imported from [saq.crypto]; both take the password from
    [saq.ENCRYPTION_PASSWORD].  [decrypt_chunk] is handed whatever
    [read_n_bytes] returned, which may be [None]. *)
Record saq_crypto : Type := mkCrypto {
  encrypt_chunk : bytes -> bytes -> outcome bytes;
  decrypt_chunk : bytes -> option bytes -> outcome bytes
}.

Record world : Type := mkWorld {
  sock : socket;
  fs : filesystem;
  log : list (log_level * log_text);
  handler_calls : list ANPMessage;      (* trace of the calls of the handler *)
  tcp_client_threads : list Z;
  ENCRYPTION_PASSWORD : option bytes;   (* saq.ENCRYPTION_PASSWORD *)
  SAQ_HOME : pystr;                     (* saq.SAQ_HOME *)
  crypto : saq_crypto
}.

Definition set_sock (s : socket) (w : world) : world :=
  mkWorld s (fs w) (log w) (handler_calls w) (tcp_client_threads w)
          (ENCRYPTION_PASSWORD w) (SAQ_HOME w) (crypto w).

Definition set_fs (f : filesystem) (w : world) : world :=
  mkWorld (sock w) f (log w) (handler_calls w) (tcp_client_threads w)
          (ENCRYPTION_PASSWORD w) (SAQ_HOME w) (crypto w).

Definition set_log (l : list (log_level * log_text)) (w : world) : world :=
  mkWorld (sock w) (fs w) l (handler_calls w) (tcp_client_threads w)
          (ENCRYPTION_PASSWORD w) (SAQ_HOME w) (crypto w).

Definition set_handler_calls (l : list ANPMessage) (w : world) : world :=
  mkWorld (sock w) (fs w) (log w) l (tcp_client_threads w)
          (ENCRYPTION_PASSWORD w) (SAQ_HOME w) (crypto w).

Definition set_tcp_client_threads (l : list Z) (w : world) : world :=
  mkWorld (sock w) (fs w) (log w) (handler_calls w) l
          (ENCRYPTION_PASSWORD w) (SAQ_HOME w) (crypto w).

(** ** The monad *)

Definition M (A : Type) : Type := world -> outcome A * world.

Definition ret {A : Type} (a : A) : M A := fun w => (Return a, w).

Definition raise {A : Type} (e : exn) : M A := fun w => (Raise e, w).

Definition timeout {A : Type} : M A := fun w => (Timeout, w).

Definition bind {A B : Type} (c : M A) (k : A -> M B) : M B :=
  fun w =>
    match c w with
    | (Return a, w') => k a w'
    | (Raise e, w') => (Raise e, w')
    | (Timeout, w') => (Timeout, w')
    end.

(** [try: c  except Exception as e: h e] *)
Definition try_except {A : Type} (c : M A) (h : exn -> M A) : M A :=
  fun w =>
    match c w with
    | (Raise e, w') => h e w'
    | r => r
    end.

Definition lift {A : Type} (o : outcome A) : M A := fun w => (o, w).

Declare Scope anp_scope.
Delimit Scope anp_scope with anp.
Notation "x <- c ;; k" := (bind c (fun x => k))
  (at level 61, c at next level, right associativity) : anp_scope.
Notation "c ;;; k" := (bind c (fun _ => k))
  (at level 61, right associativity) : anp_scope.
Local Open Scope anp_scope.

(** ** The socket object *)

Definition deliver (sizes : list nat) (asked : nat) : nat :=
  match sizes with
  | [] => asked
  | n :: _ => Nat.min (Nat.max 1 n) asked
  end.

(** [s.recv(bufsize)]: an empty result means that the peer has closed. *)
Definition recv (bufsize : Z) : M bytes := fun w =>
  let s := sock w in
  if sock_closed s then (Raise OSError, w)
  else
    let n := deliver (recv_sizes s) (Z.to_nat bufsize) in
    (Return (firstn n (inbound s)),
     set_sock (mkSocket (skipn n (inbound s)) (tl (recv_sizes s))
                        (outbound s) (send_sizes s)
                        (sock_shutdown s) (sock_closed s)) w).

(** [s.send(data)]: returns how many bytes were taken. *)
Definition send (data : bytes) : M Z := fun w =>
  let s := sock w in
  if sock_closed s then (Raise OSError, w)
  else
    let n := deliver (send_sizes s) (length data) in
    (Return (len (firstn n data)),
     set_sock (mkSocket (inbound s) (recv_sizes s)
                        (outbound s ++ firstn n data) (tl (send_sizes s))
                        (sock_shutdown s) (sock_closed s)) w).

Inductive shut_how : Type := SHUT_RD | SHUT_WR | SHUT_RDWR.

(** [s.shutdown(how)]; the argument is required, a call without it raises
    [TypeError] before anything happens to the socket. *)
Definition socket_shutdown (how : option shut_how) : M unit := fun w =>
  let s := sock w in
  match how with
  | None => (Raise TypeError, w)
  | Some _ =>
      if sock_closed s then (Raise OSError, w)
      else (Return tt,
            set_sock (mkSocket (inbound s) (recv_sizes s) (outbound s)
                               (send_sizes s) true (sock_closed s)) w)
  end.

(** [s.close()] *)
Definition socket_close : M unit := fun w =>
  let s := sock w in
  (Return tt,
   set_sock (mkSocket (inbound s) (recv_sizes s) (outbound s)
                      (send_sizes s) (sock_shutdown s) true) w).

(** ** ANPSocket: base network I/O routines *)

(** [close_socket]: both calls are wrapped in [try ... except: pass]. *)
Definition close_socket : M unit :=
  try_except (socket_shutdown (Some SHUT_RDWR)) (fun _ => ret tt) ;;;
  try_except socket_close (fun _ => ret tt).

(** The [while bytes_read < count] loop of [read_n_bytes]. *)
Fixpoint read_n_bytes_loop (fuel : nat) (count bytes_read : Z)
         (byte_buffer : bytes) : M (option bytes) :=
  if bytes_read <? count then
    match fuel with
    | O => timeout
    | S fuel' =>
        let bytes_left := count - bytes_read in
        let chunk_size :=
          if DEFAULT_BUFFER_SIZE <? count then DEFAULT_BUFFER_SIZE else count in
        data <- recv chunk_size ;;
        if (len data =? 0) && (bytes_read =? 0) then
          ret None                                 (* socket closed normally *)
        else if len data =? 0 then
          raise (ANPException (EndOfStream bytes_left))
        else
          read_n_bytes_loop fuel' count (bytes_read + len data)
            (slice_assign byte_buffer bytes_read (bytes_read + count) data)
    end
  else ret (Some byte_buffer).

(** [read_n_bytes]: every turn of the loop that goes on has received at least
    one pending byte, so the number of pending bytes plus one is enough fuel. *)
Definition read_n_bytes (count : Z) : M (option bytes) := fun w =>
  if count =? 0 then (Raise AssertionError, w)           (* assert count *)
  else if count <? 0 then (Raise ValueError, w)          (* bytearray(count) *)
  else
    read_n_bytes_loop (S (length (inbound (sock w)))) count 0
                      (repeat x00 (Z.to_nat count)) w.

(** The [while bytes_written < len(data)] loop of [write_n_bytes]. *)
Fixpoint write_n_bytes_loop (fuel : nat) (data : bytes) (bytes_written : Z)
  : M unit :=
  if bytes_written <? len data then
    match fuel with
    | O => timeout
    | S fuel' =>
        let chunk_size :=
          if DEFAULT_BUFFER_SIZE <? len data
          then DEFAULT_BUFFER_SIZE else len data in
        bytes_sent <- send (slice data bytes_written (bytes_written + chunk_size)) ;;
        write_n_bytes_loop fuel' data (bytes_written + bytes_sent)
    end
  else ret tt.

Definition write_n_bytes (data : bytes) : M unit :=
  write_n_bytes_loop (length data) data 0.

(** [read_uint] and [read_ulong] return [None] if the socket closed. *)
Definition read_uint : M (option Z) :=
  data <- read_n_bytes (Z.of_nat UINT_SIZE) ;;
  match data with
  | None => ret None
  | Some d => v <- lift (struct_unpack UINT_SIZE d) ;; ret (Some v)
  end.

Definition read_ulong : M (option Z) :=
  data <- read_n_bytes (Z.of_nat ULONG_SIZE) ;;
  match data with
  | None => ret None
  | Some d => v <- lift (struct_unpack ULONG_SIZE d) ;; ret (Some v)
  end.

Definition read_data : M (option bytes) :=
  data_length <- read_uint ;;
  match data_length with
  | None => ret None
  | Some data_length =>
      if data_length =? 0 then ret (Some [])
      else
        result <- read_n_bytes data_length ;;
        (* are we encrypting data? *)
        fun w =>
          match ENCRYPTION_PASSWORD w with
          | None => (Return result, w)
          | Some password =>
              match decrypt_chunk (crypto w) password result with
              | Return plain => (Return (Some plain), w)
              | Raise e => (Raise e, w)
              | Timeout => (Timeout, w)
              end
          end
  end.

Definition write_uint (value : Z) : M unit :=
  data <- lift (struct_pack UINT_SIZE value) ;; write_n_bytes data.

Definition write_ulong (value : Z) : M unit :=
  data <- lift (struct_pack ULONG_SIZE value) ;; write_n_bytes data.

(** Truth value of [saq.ENCRYPTION_PASSWORD]: [None] and the empty value are
    false. *)
Definition truthy (password : option bytes) : option bytes :=
  match password with
  | Some (b :: p) => Some (b :: p)
  | _ => None
  end.

Definition write_data (value : bytes) : M unit :=
  value <- (fun w =>
              match truthy (ENCRYPTION_PASSWORD w) with
              | Some password => (encrypt_chunk (crypto w) password value, w)
              | None => (Return value, w)
              end) ;;
  write_uint (len value) ;;;
  if 0 <? len value then write_n_bytes value else ret tt.

(** ** The utf16 codec of [str.encode] and [bytes.decode]

    On a little-endian host [encode('utf16')] writes the byte order mark
    FF FE and then little-endian code units; [decode('utf16')] takes the byte
    order from a leading mark, which it drops, and is little-endian without
    one.  Both are strict: a surrogate code point cannot be encoded, and
    an odd byte or an unpaired surrogate cannot be decoded. *)

Definition is_high_surrogate (u : Z) : bool := (0xD800 <=? u) && (u <=? 0xDBFF).
Definition is_low_surrogate (u : Z) : bool := (0xDC00 <=? u) && (u <=? 0xDFFF).

Definition unit_bytes (big_endian : bool) (u : Z) : bytes :=
  if big_endian then [byte_of_Z (u / 256); byte_of_Z u]
  else [byte_of_Z u; byte_of_Z (u / 256)].

Definition bytes_unit (big_endian : bool) (b0 b1 : byte) : Z :=
  if big_endian then Z_of_byte b0 * 256 + Z_of_byte b1
  else Z_of_byte b1 * 256 + Z_of_byte b0.

Fixpoint utf16_encode_units (s : pystr) : outcome bytes :=
  match s with
  | [] => Return []
  | c :: s' =>
      if (c <? 0) || (0x10FFFF <? c) || ((0xD800 <=? c) && (c <=? 0xDFFF))
      then Raise UnicodeEncodeError
      else
        match utf16_encode_units s' with
        | Return rest =>
            if c <? 0x10000 then Return (unit_bytes false c ++ rest)
            else
              let c' := c - 0x10000 in
              Return (unit_bytes false (0xD800 + c' / 0x400)
                      ++ unit_bytes false (0xDC00 + c' mod 0x400) ++ rest)
        | r => r
        end
  end.

Definition BOM_LE : bytes := [xff; xfe].
Definition BOM_BE : bytes := [xfe; xff].

Definition utf16_encode (s : pystr) : outcome bytes :=
  match utf16_encode_units s with
  | Return units => Return (BOM_LE ++ units)
  | r => r
  end.

Fixpoint utf16_decode_units (big_endian : bool) (data : bytes)
  : outcome pystr :=
  match data with
  | [] => Return []
  | [_] => Raise UnicodeDecodeError                        (* truncated data *)
  | b0 :: b1 :: rest =>
      let u := bytes_unit big_endian b0 b1 in
      if is_high_surrogate u then
        match rest with
        | c0 :: c1 :: rest' =>
            let u2 := bytes_unit big_endian c0 c1 in
            if is_low_surrogate u2 then
              match utf16_decode_units big_endian rest' with
              | Return s =>
                  Return (0x10000 + (u - 0xD800) * 0x400 + (u2 - 0xDC00) :: s)
              | r => r
              end
            else Raise UnicodeDecodeError                  (* illegal encoding *)
        | _ => Raise UnicodeDecodeError                    (* unexpected end of data *)
        end
      else if is_low_surrogate u then
        Raise UnicodeDecodeError                           (* illegal encoding *)
      else
        match utf16_decode_units big_endian rest with
        | Return s => Return (u :: s)
        | r => r
        end
  end.

Definition utf16_decode (data : bytes) : outcome pystr :=
  match data with
  | xff :: xfe :: rest => utf16_decode_units false rest
  | xfe :: xff :: rest => utf16_decode_units true rest
  | _ => utf16_decode_units false data
  end.

(** [value.encode('utf16')] on an attribute: only a [str] has the method. *)
Definition encode_value (value : pyval) : outcome bytes :=
  match value with
  | PyStr s => utf16_encode s
  | _ => Raise AttributeError
  end.

Definition read_string : M (option pystr) :=
  _bytes <- read_data ;;
  match _bytes with
  | None => ret None
  | Some b => s <- lift (utf16_decode b) ;; ret (Some s)
  end.

Definition write_string (value : pyval) : M unit :=
  data <- lift (encode_value value) ;; write_data data.

(** ** Files

    A file object opened for writing is identified by its path and writes
    through to the file system; a file object opened for reading is the part
    of the content that was not read yet. *)

Fixpoint fs_get (files : list (pystr * bytes)) (p : pystr) : option bytes :=
  match files with
  | [] => None
  | (q, content) :: files' =>
      if pystr_eqb q p then Some content else fs_get files' p
  end.

Definition fs_put (files : list (pystr * bytes)) (p : pystr) (content : bytes)
  : list (pystr * bytes) :=
  (p, content) :: filter (fun kv => negb (pystr_eqb (fst kv) p)) files.

Definition isdir (f : filesystem) (p : pystr) : bool :=
  existsb (pystr_eqb p) (fs_dirs f).

Definition exists_ (f : filesystem) (p : pystr) : bool :=
  match fs_get (fs_files f) p with
  | Some _ => true
  | None => isdir f p
  end.

Definition sep : Z := 47.   (* '/' *)

Definition is_sep (c : Z) : bool := c =? sep.

Definition startswith_sep (p : pystr) : bool :=
  match p with
  | c :: _ => is_sep c
  | [] => false
  end.

Definition endswith_sep (p : pystr) : bool := startswith_sep (rev p).

(** [os.path.join(a, b)] of posixpath; [b] has to be a [str]. *)
Definition os_path_join (a : pystr) (b : pyval) : outcome pystr :=
  match b with
  | PyStr b =>
      if startswith_sep b then Return b
      else if match a with [] => true | _ => endswith_sep a end
           then Return (a ++ b)
           else Return (a ++ sep :: b)
  | _ => Raise TypeError
  end.

Fixpoint dropwhile {A : Type} (f : A -> bool) (l : list A) : list A :=
  match l with
  | [] => []
  | x :: l' => if f x then dropwhile f l' else l
  end.

(** [os.path.dirname(p)] of posixpath: everything up to the last slash,
    without trailing slashes unless it consists of slashes only. *)
Definition os_path_dirname (p : pystr) : pystr :=
  let head := dropwhile (fun c => negb (is_sep c)) (rev p) in   (* reversed *)
  if forallb is_sep head then rev head
  else rev (dropwhile is_sep head).

(** [os.makedirs(d)]: fails on the empty path and on an existing entry;
    only [d] itself is recorded as a directory. *)
Definition os_makedirs (d : pystr) : M unit := fun w =>
  match d with
  | [] => (Raise OSError, w)
  | _ =>
      if exists_ (fs w) d then (Raise OSError, w)
      else (Return tt, set_fs (mkFs (fs_files (fs w)) (d :: fs_dirs (fs w))) w)
  end.

(** [open(p, 'wb')]: creates or truncates the file. *)
Definition open_wb (p : pystr) : M pystr := fun w =>
  if isdir (fs w) p then (Raise OSError, w)
  else (Return p, set_fs (mkFs (fs_put (fs_files (fs w)) p []) (fs_dirs (fs w))) w).

(** [open(p, 'rb')] *)
Definition open_rb (p : pyval) : M bytes := fun w =>
  match p with
  | PyStr p =>
      match fs_get (fs_files (fs w)) p with
      | Some content => (Return content, w)
      | None => (Raise OSError, w)
      end
  | _ => (Raise TypeError, w)
  end.

(** [fp.write(data)] on a file opened with ['wb']; [None] is not bytes. *)
Definition fp_write (fp : pystr) (data : option bytes) : M unit := fun w =>
  match data with
  | None => (Raise TypeError, w)
  | Some d =>
      let old := match fs_get (fs_files (fs w)) fp with
                 | Some c => c
                 | None => []
                 end in
      (Return tt,
       set_fs (mkFs (fs_put (fs_files (fs w)) fp (old ++ d)) (fs_dirs (fs w))) w)
  end.

Definition logging (level : log_level) (text : log_text) : M unit := fun w =>
  (Return tt, set_log (log w ++ [(level, text)]) w).

(** ** Chunked data *)

Definition is_last_chunk (next_chunk : option bytes) : bool :=
  match next_chunk with
  | Some [] => true
  | _ => false
  end.

(** The [while True] loop of [read_chunked_data]. *)
Fixpoint read_chunked_data_loop (fuel : nat) (fp : pystr) : M unit :=
  match fuel with
  | O => timeout
  | S fuel' =>
      next_chunk <- read_data ;;
      if is_last_chunk next_chunk then ret tt
      else fp_write fp next_chunk ;;; read_chunked_data_loop fuel' fp
  end.

(** Every turn that goes on has read a block that is not empty. *)
Definition read_chunked_data (fp : pystr) : M unit := fun w =>
  read_chunked_data_loop (S (length (inbound (sock w)))) fp w.

(** The [while True] loop of [write_chunked_data]; [fp.read(n)] returns the
    next [n] bytes of the file, fewer at its end. *)
Fixpoint write_chunked_data_loop (fuel : nat) (fp : bytes) : M unit :=
  match fuel with
  | O => timeout
  | S fuel' =>
      let chunk := firstn (Z.to_nat DEFAULT_CHUNK_SIZE) fp in
      write_data chunk ;;;
      match chunk with
      | [] => ret tt
      | _ => write_chunked_data_loop fuel' (skipn (Z.to_nat DEFAULT_CHUNK_SIZE) fp)
      end
  end.

Definition write_chunked_data (fp : bytes) : M unit :=
  write_chunked_data_loop (S (length fp)) fp.

(** ** OO command abstraction *)

(** The list of commands available. *)
Definition ANP_COMMAND_EXIT : Z := 1.
Definition ANP_COMMAND_REGISTER : Z := 2.
Definition ANP_COMMAND_OK : Z := 3.
Definition ANP_COMMAND_ERROR : Z := 4.
Definition ANP_COMMAND_PING : Z := 5.
Definition ANP_COMMAND_PONG : Z := 6.
Definition ANP_COMMAND_AVAILABLE : Z := 7.
Definition ANP_COMMAND_COPY_FILE : Z := 8.
Definition ANP_COMMAND_PROCESS : Z := 9.
Definition ANP_COMMAND_BUSY : Z := 10.

(** The [command] attribute, set by [ANPMessage.__init__] from the constant
    each subclass passes to it. *)
Definition command (m : ANPMessage) : Z :=
  match m with
  | ANPCommandEXIT => ANP_COMMAND_EXIT
  | ANPCommandREGISTER => ANP_COMMAND_REGISTER
  | ANPCommandOK => ANP_COMMAND_OK
  | ANPCommandBUSY => ANP_COMMAND_BUSY
  | ANPCommandERROR _ => ANP_COMMAND_ERROR
  | ANPCommandPING _ => ANP_COMMAND_PING
  | ANPCommandPONG _ => ANP_COMMAND_PONG
  | ANPCommandAVAILABLE => ANP_COMMAND_AVAILABLE
  | ANPCommandCOPY_FILE _ _ => ANP_COMMAND_COPY_FILE
  | ANPCommandPROCESS _ => ANP_COMMAND_PROCESS
  end.

(** The classes called with one positional argument, as [recv_message] does:
    a class without parameters ignores it, [ANPCommandCOPY_FILE] leaves
    [source_path] at its default. *)
Definition ANP_CLASS_LOOKUP : list (Z * (pyval -> ANPMessage)) :=
  [ (ANP_COMMAND_EXIT, fun _ => ANPCommandEXIT);
    (ANP_COMMAND_REGISTER, fun _ => ANPCommandREGISTER);
    (ANP_COMMAND_OK, fun _ => ANPCommandOK);
    (ANP_COMMAND_ERROR, fun error_message => ANPCommandERROR error_message);
    (ANP_COMMAND_PING, fun message => ANPCommandPING message);
    (ANP_COMMAND_PONG, fun message => ANPCommandPONG message);
    (ANP_COMMAND_AVAILABLE, fun _ => ANPCommandAVAILABLE);
    (ANP_COMMAND_COPY_FILE, fun path => ANPCommandCOPY_FILE path PyNone);
    (ANP_COMMAND_PROCESS, fun target => ANPCommandPROCESS target);
    (ANP_COMMAND_BUSY, fun _ => ANPCommandBUSY) ].

(** [d[key]]: [None] stands for [KeyError]. *)
Fixpoint dict_get {V : Type} (d : list (Z * V)) (key : Z) : option V :=
  match d with
  | [] => None
  | (k, v) :: d' => if k =? key then Some v else dict_get d' key
  end.

Definition pyval_of (s : option pystr) : pyval :=
  match s with
  | Some s => PyStr s
  | None => PyNone
  end.

(** [recv_parameters]: reads the rest of the data for the command and
    returns the message with its attributes set. *)
Definition recv_parameters (m : ANPMessage) : M ANPMessage :=
  match m with
  | ANPCommandERROR _ =>
      s <- read_string ;; ret (ANPCommandERROR (pyval_of s))
  | ANPCommandPING _ =>
      s <- read_string ;; ret (ANPCommandPING (pyval_of s))
  | ANPCommandPONG _ =>
      s <- read_string ;; ret (ANPCommandPONG (pyval_of s))
  | ANPCommandPROCESS _ =>
      s <- read_string ;; ret (ANPCommandPROCESS (pyval_of s))
  | ANPCommandCOPY_FILE _ source_path =>
      s <- read_string ;;
      let path := pyval_of s in
      full_path <- (fun w => (os_path_join (SAQ_HOME w) path, w)) ;;
      logging DEBUG (TargetFileIs full_path) ;;;
      let dir_path := os_path_dirname full_path in
      is_dir <- (fun w => (Return (isdir (fs w) dir_path), w)) ;;
      (if negb is_dir
       then logging DEBUG (CreatingDirectory dir_path) ;;; os_makedirs dir_path
       else ret tt) ;;;
      present <- (fun w => (Return (exists_ (fs w) full_path), w)) ;;
      (if present then logging WARNING (TargetFileExists full_path)
       else ret tt) ;;;
      fp <- open_wb full_path ;;
      read_chunked_data fp ;;;
      ret (ANPCommandCOPY_FILE path source_path)
  | _ => ret m
  end.

(** [send_parameters]: sends any parameters required for the command. *)
Definition send_parameters (m : ANPMessage) : M unit :=
  match m with
  | ANPCommandERROR error_message => write_string error_message
  | ANPCommandPING message => write_string message
  | ANPCommandPONG message => write_string message
  | ANPCommandPROCESS target => write_string target
  | ANPCommandCOPY_FILE path source_path =>
      write_string path ;;;
      fp <- open_rb source_path ;;
      write_chunked_data fp
  | _ => ret tt
  end.

Definition recv_message : M (option ANPMessage) :=
  (* read the 4 byte command *)
  command <- read_uint ;;
  match command with
  | None => ret None                                    (* connection was closed *)
  | Some command =>
      match dict_get ANP_CLASS_LOOKUP command with
      | None => raise (ANPException (UnknownCommand command))
      | Some cls =>
          result <- recv_parameters (cls PyANPSocket) ;;
          ret (Some result)
      end
  end.

Definition send_message (message : ANPMessage) : M unit :=
  write_uint (command message) ;;;
  send_parameters message.

(** ** ACENetworkProtocolServer: the worker of one connection *)

Record ACENetworkProtocolServer : Type := mkServer {
  listening_host : pystr;
  listening_port : Z;
  (* the function that gets called when a command is received *)
  command_handler : ANPMessage -> M unit
}.

(** The call [self.command_handler(anp, command)], noted in the trace. *)
Definition call_handler (self : ACENetworkProtocolServer) (m : ANPMessage)
  : M unit :=
  (fun w => (Return tt, set_handler_calls (handler_calls w ++ [m]) w)) ;;;
  command_handler self m.

(** [tcp_client_execute] returns [False] ([Some false]) or falls off its end
    ([None]). *)
Definition tcp_client_execute (self : ACENetworkProtocolServer)
           (client_address : pystr) : M (option bool) :=
  cmd <- recv_message ;;
  match cmd with
  | None => ret (Some false)
  | Some cmd =>
      logging INFO (ReceivedCommand cmd client_address) ;;;
      if command cmd =? ANP_COMMAND_EXIT then ret (Some false)
      else
        try_except (call_handler self cmd)
                   (fun e => logging ERROR (ErrorProcessingCommand cmd e) ;;;
                             logging ERROR ReportException) ;;;
        ret None
  end.

(** The [while not socket_closed and not self.control_event.is_set()] loop.
    [polls] is the number of times [is_set()] answers [False] before the
    shutdown event is set; the result of [tcp_client_execute] is dropped and
    [socket_closed] keeps the value it is entered with. *)
Fixpoint tcp_client_serve (self : ACENetworkProtocolServer) (polls : nat)
         (client_address : pystr) (socket_closed : bool) : M unit :=
  if socket_closed then ret tt
  else
    match polls with
    | O => ret tt
    | S polls' =>
        go_on <- try_except
                   (tcp_client_execute self client_address ;;; ret true)
                   (fun e => logging WARNING (ErrorHandlingClientRequest e) ;;;
                             ret false (* break *)) ;;
        if go_on then tcp_client_serve self polls' client_address socket_closed
        else ret tt
    end.

(** [list.remove(x)] *)
Fixpoint list_remove (x : Z) (l : list Z) : option (list Z) :=
  match l with
  | [] => None
  | y :: l' =>
      if x =? y then Some l'
      else match list_remove x l' with
           | Some r => Some (y :: r)
           | None => None
           end
  end.

Definition tcp_client_loop (self : ACENetworkProtocolServer) (polls : nat)
           (client_address : pystr) (current_thread : Z) : M unit :=
  let socket_closed := false in
  tcp_client_serve self polls client_address socket_closed ;;;
  try_except (socket_shutdown None) (fun _ => ret tt) ;;;
  fun w =>
    match list_remove current_thread (tcp_client_threads w) with
    | Some l => (Return tt, set_tcp_client_threads l w)
    | None => (Raise ValueError, w)
    end.

(** ** Notions used in the statements *)

(** The process state after receiving: [pending] is what is left of the
    inbound stream and [sizes] what is left of the short-read schedule. *)
Definition recv_world (w : world) (pending : bytes) (sizes : list nat) : world :=
  set_sock (mkSocket pending sizes (outbound (sock w)) (send_sizes (sock w))
                     (sock_shutdown (sock w)) (sock_closed (sock w))) w.

(** The process state after sending: [out] is everything written so far. *)
Definition send_world (w : world) (out : bytes) (sizes : list nat) : world :=
  set_sock (mkSocket (inbound (sock w)) (recv_sizes (sock w)) out sizes
                     (sock_shutdown (sock w)) (sock_closed (sock w))) w.

(** The size of the buffer that [read_n_bytes] hands to every [recv]. *)
Definition recv_chunk (count : Z) : Z :=
  if DEFAULT_BUFFER_SIZE <? count then DEFAULT_BUFFER_SIZE else count.

(** [count] rounded up to a multiple of [recv_chunk count]. *)
Definition round_up (count : Z) : Z :=
  (count + recv_chunk count - 1) / recv_chunk count * recv_chunk count.

(** What [read_n_bytes count] makes of a stream that ends after [got]. *)
Definition end_of_stream_result (count : Z) (got : bytes)
  : outcome (option bytes) :=
  if len got =? count then Return (Some got)
  else if len got =? 0 then Return None
  else Raise (ANPException (EndOfStream (count - len got))).

(** When a read is exact: the count fits one buffer, or is a multiple of the
    buffer, or nothing follows the bytes asked for. *)
Definition exact_read (count : Z) (rest : bytes) : Prop :=
  count <= DEFAULT_BUFFER_SIZE \/ count mod DEFAULT_BUFFER_SIZE = 0 \/ rest = [].


(** [w'] is [w] after [data] has been written to the socket. *)
Definition wrote (w w' : world) (data : bytes) : Prop :=
  exists sizes, w' = send_world w (outbound (sock w) ++ data) sizes.

(** ** Sample processes *)

(** A stand-in for [saq.crypto]: the cipher text is the plain text behind a
    one-byte header, and a chunk without the header is rejected. *)
Definition sample_crypto : saq_crypto :=
  mkCrypto
    (fun _ chunk => Return (xa5 :: chunk))
    (fun _ chunk =>
       match chunk with
       | Some (xa5 :: plain) => Return plain
       | _ => Raise ValueError
       end).

Definition sample_home : pystr := [47; 111; 112; 116].        (* /opt *)
Definition sample_address : pystr := [49; 48; 46; 49].        (* 10.1 *)

(** A process whose peer wrote [pending] and closed, with the short reads
    [sizes], an empty file system and one registered client thread. *)
Definition sample_world (pending : bytes) (sizes : list nat) : world :=
  mkWorld (mkSocket pending sizes [] [] false false)
          (mkFs [] []) [] [] [1] None sample_home sample_crypto.

Definition with_password (password : option bytes) (w : world) : world :=
  mkWorld (sock w) (fs w) (log w) (handler_calls w) (tcp_client_threads w)
          password (SAQ_HOME w) (crypto w).

(** A handler that answers PING with PONG and REGISTER with OK, and fails on
    PROCESS. *)
Definition sample_handler (m : ANPMessage) : M unit :=
  match m with
  | ANPCommandPING message => send_message (ANPCommandPONG message)
  | ANPCommandREGISTER => send_message ANPCommandOK
  | ANPCommandPROCESS _ => raise (RuntimeError 1)
  | _ => ret tt
  end.

Definition sample_server : ACENetworkProtocolServer :=
  mkServer [48] DEFAULT_PORT sample_handler.

Definition frame (m : ANPMessage) : bytes :=
  outbound (sock (snd (send_message m (sample_world [] [])))).

Definition sample_source : pystr := [47; 115; 114; 99].       (* /src *)
Definition sample_sink : pystr := [115].                      (* s *)

(** A sending process that has the file [/src] with the given content. *)
Definition sample_sender (content : bytes) : world :=
  set_fs (mkFs [(sample_source, content)] []) (sample_world [] []).

Definition UNKNOWN_9999 : bytes := [x00; x00; x27; x0f].

(** The ten variants of the wire contract and the id each is assigned. *)
Inductive variant : Type :=
| EXIT | REGISTER | OK | ERROR_ | PING | PONG | AVAILABLE | COPY_FILE
| PROCESS | BUSY.

(** The class of a message object. *)
Definition variant_of (m : ANPMessage) : variant :=
  match m with
  | ANPCommandEXIT => EXIT
  | ANPCommandREGISTER => REGISTER
  | ANPCommandOK => OK
  | ANPCommandBUSY => BUSY
  | ANPCommandERROR _ => ERROR_
  | ANPCommandPING _ => PING
  | ANPCommandPONG _ => PONG
  | ANPCommandAVAILABLE => AVAILABLE
  | ANPCommandCOPY_FILE _ _ => COPY_FILE
  | ANPCommandPROCESS _ => PROCESS
  end.

(** The command ids as the wire contract lists them: EXIT=1, REGISTER=2,
    OK=3, ERROR=4, PING=5, PONG=6, AVAILABLE=7, COPY_FILE=8, PROCESS=9,
    BUSY=10. *)
Definition wire_contract (v : variant) : Z :=
  match v with
  | EXIT => 1 | REGISTER => 2 | OK => 3 | ERROR_ => 4 | PING => 5
  | PONG => 6 | AVAILABLE => 7 | COPY_FILE => 8 | PROCESS => 9 | BUSY => 10
  end.

(** The message of a variant whose payload is one string. *)
Definition string_message (v : variant) (value : pyval) : option ANPMessage :=
  match v with
  | ERROR_ => Some (ANPCommandERROR value)
  | PING => Some (ANPCommandPING value)
  | PONG => Some (ANPCommandPONG value)
  | PROCESS => Some (ANPCommandPROCESS value)
  | _ => None
  end.

(** The payload of the block that [write_data] sends for [value]. *)
Definition sealed (w : world) (value : bytes) : outcome bytes :=
  match truthy (ENCRYPTION_PASSWORD w) with
  | Some password => encrypt_chunk (crypto w) password value
  | None => Return value
  end.

(** What [read_data] makes of the payload of a block that is not empty. *)
Definition opened (w : world) (payload : bytes) : outcome (option bytes) :=
  match ENCRYPTION_PASSWORD w with
  | None => Return (Some payload)
  | Some password =>
      match decrypt_chunk (crypto w) password (Some payload) with
      | Return plain => Return (Some plain)
      | Raise e => Raise e
      | Timeout => Timeout
      end
  end.

(** The code points that [encode('utf16')] accepts: no surrogates. *)
Definition scalar_value (c : Z) : Prop :=
  0 <= c <= 0x10FFFF /\ ~ 0xD800 <= c <= 0xDFFF.

(** The utf16 encoding of a string, [[]] where there is none. *)
Definition utf16 (s : pystr) : bytes :=
  match utf16_encode s with
  | Return data => data
  | _ => []
  end.

(** The message of a variant without payload. *)
Definition plain_message (v : variant) : option ANPMessage :=
  match v with
  | EXIT => Some ANPCommandEXIT
  | REGISTER => Some ANPCommandREGISTER
  | OK => Some ANPCommandOK
  | BUSY => Some ANPCommandBUSY
  | AVAILABLE => Some ANPCommandAVAILABLE
  | _ => None
  end.

(** The block that the sender [ws] writes for [value] is not empty, fits its
    length prefix, and is read back as [value] by the receiver [wr]: so it is
    without a password on both sides, and with a shared password if the
    cipher decrypts what it encrypted. *)
Definition transports (ws wr : world) (value : bytes) : Prop :=
  exists c, sealed ws value = Return c
            /\ 0 < len c < 2 ^ 32
            /\ opened wr c = Return (Some value).

(** One block on the wire, without encryption. *)
Definition block (payload : bytes) : bytes :=
  pack_be 4 (len payload) ++ payload.

(** The chunks in which [write_chunked_data] reads a file. *)
Fixpoint chunks_of (fuel : nat) (data : bytes) : list bytes :=
  match fuel with
  | O => []
  | S fuel' =>
      match data with
      | [] => []
      | _ => firstn (Z.to_nat DEFAULT_CHUNK_SIZE) data
             :: chunks_of fuel' (skipn (Z.to_nat DEFAULT_CHUNK_SIZE) data)
      end
  end.

(** A payload length that [read_n_bytes] reads exactly even when more bytes
    follow: at most one buffer, or a whole number of buffers. *)
Definition exact_size (n : Z) : Prop :=
  n <= DEFAULT_BUFFER_SIZE \/ n mod DEFAULT_BUFFER_SIZE = 0.



(** A receiving process that has the directory [/opt]. *)
Definition sample_receiver (pending : bytes) : world :=
  set_fs (mkFs [] [sample_home]) (sample_world pending []).

Definition sample_copy : ANPMessage :=
  ANPCommandCOPY_FILE (PyStr [97]) (PyStr sample_source).

Definition sample_copy_wire : bytes :=
  outbound (sock (snd (send_message sample_copy (sample_sender [x41; x42])))).

(** [n] calls of [recv_message], one after the other. *)
Fixpoint recv_messages (n : nat) : M (list (option ANPMessage)) :=
  match n with
  | O => ret []
  | S k =>
      m <- recv_message ;;
      ms <- recv_messages k ;;
      ret (m :: ms)
  end.

(** A message without payload, or with one string that has no surrogates and
    whose encoding has a length that is read exactly. *)
Definition short_message (m : ANPMessage) : Prop :=
  (exists v, plain_message v = Some m)
  \/ (exists v s, string_message v (PyStr s) = Some m
                  /\ Forall scalar_value s
                  /\ len (utf16 s) < 2 ^ 32
                  /\ exact_size (len (utf16 s))).

(** What [recv_message] can return: the attribute of a message with a string
    is a string without surrogates or [None]; a COPY_FILE has a string for
    its path and [None] for its [source_path]. *)
Definition received_shape (m : ANPMessage) : Prop :=
  match m with
  | ANPCommandERROR v | ANPCommandPING v | ANPCommandPONG v
  | ANPCommandPROCESS v =>
      v = PyNone \/ exists s, v = PyStr s /\ Forall scalar_value s
  | ANPCommandCOPY_FILE p source_path =>
      (exists s, p = PyStr s /\ Forall scalar_value s) /\ source_path = PyNone
  | _ => True
  end.


(** ** Names of the commands *)

(** [ANP_COMMAND_STRING]; the names are strings of code points: exit,
    register, ok, error, ping, pong, available, copy_file, process, busy. *)
Definition ANP_COMMAND_STRING : list (Z * pystr) :=
  [ (ANP_COMMAND_EXIT, [101; 120; 105; 116]);
    (ANP_COMMAND_REGISTER, [114; 101; 103; 105; 115; 116; 101; 114]);
    (ANP_COMMAND_OK, [111; 107]);
    (ANP_COMMAND_ERROR, [101; 114; 114; 111; 114]);
    (ANP_COMMAND_PING, [112; 105; 110; 103]);
    (ANP_COMMAND_PONG, [112; 111; 110; 103]);
    (ANP_COMMAND_AVAILABLE, [97; 118; 97; 105; 108; 97; 98; 108; 101]);
    (ANP_COMMAND_COPY_FILE, [99; 111; 112; 121; 95; 102; 105; 108; 101]);
    (ANP_COMMAND_PROCESS, [112; 114; 111; 99; 101; 115; 115]);
    (ANP_COMMAND_BUSY, [98; 117; 115; 121]) ].

(** [ANPMessage.__str__]: the name of the command; [KeyError] without one. *)
Definition ANPMessage_str (m : ANPMessage) : outcome pystr :=
  match dict_get ANP_COMMAND_STRING (command m) with
  | Some name => Return name
  | None => Raise (RuntimeError 0)     (* KeyError *)
  end.

(** [__str__] of the classes: the subclasses with an attribute put it after
    the name and a blank ('{} {}'.format); the attribute is kept as it is. *)
Definition message_str (m : ANPMessage) : outcome (pystr * option pyval) :=
  match ANPMessage_str m with
  | Return name =>
      match m with
      | ANPCommandERROR v | ANPCommandPING v | ANPCommandPONG v
      | ANPCommandPROCESS v => Return (name, Some v)
      | ANPCommandCOPY_FILE path _ => Return (name, Some path)
      | _ => Return (name, None)
      end
  | Raise e => Raise e
  | Timeout => Timeout
  end.

(** ** ACENetworkProtocolServer: the listening side

    The accept loop runs on its own thread; it is modelled by itself, over
    the attributes it uses and an environment that says what each call of
    the operating system does.  Starting a worker adds it to
    [tcp_client_threads]; the workers run apart and are not part of this
    model. *)

(** What [accept()] does: it times out, returns a connection, or fails. *)
Inductive accept_result : Type :=
| AcceptTimeout
| AcceptClient (client_address : pystr)
| AcceptFails (e : exn).

(** The logging calls of the listening side, by call site. *)
Inductive server_log_text : Type :=
| ListeningForConnections
| GotConnectionFrom (client_address : pystr)
| ConnectionsActive (n : Z)
| UnableToExecuteServer (e : exn)
| ServerReportException
| UnableToCloseServerSocket (e : exn).

Record server_state : Type := mkServerState {
  (* attributes of the server object *)
  tcp_server_socket : option nat;   (* the listening socket, numbered by creation *)
  server_threads : list pystr;      (* tcp_client_threads: the workers, by client *)
  (* what has happened *)
  sockets_created : nat;
  sockets_closed : list nat;        (* the sockets close() was called on, in order *)
  server_log : list (log_level * server_log_text);
  (* the environment: the failure of each coming call, None when it succeeds;
     a call beyond the list succeeds, an accept beyond the list times out *)
  create_results : list (option exn);   (* socket.socket(...) *)
  listen_results : list (option exn);   (* setsockopt, settimeout, bind, listen *)
  accept_results : list accept_result;
  start_results : list (option exn);    (* client_thread.start() *)
  close_results : list (option exn)
}.

Definition server_logging (level : log_level) (text : server_log_text)
           (s : server_state) : server_state :=
  mkServerState (tcp_server_socket s) (server_threads s) (sockets_created s)
                (sockets_closed s) (server_log s ++ [(level, text)])
                (create_results s) (listen_results s) (accept_results s)
                (start_results s) (close_results s).

Definition next_result {A : Type} (l : list (option A)) : option A :=
  match l with
  | r :: _ => r
  | [] => None
  end.

(** [close_tcp_server_socket] *)
Definition close_tcp_server_socket (s : server_state)
  : outcome unit * server_state :=
  match tcp_server_socket s with
  | None => (Return tt, s)
  | Some n =>
      (* try: close()  except Exception: log  finally: forget the socket *)
      let s1 :=
        mkServerState None (server_threads s) (sockets_created s)
                      (sockets_closed s ++ [n]) (server_log s)
                      (create_results s) (listen_results s) (accept_results s)
                      (start_results s) (tl (close_results s)) in
      match next_result (close_results s) with
      | Some e => (Return tt, server_logging ERROR (UnableToCloseServerSocket e) s1)
      | None => (Return tt, s1)
      end
  end.

(** [tcp_server_execute] *)
Definition tcp_server_execute (s : server_state)
  : outcome unit * server_state :=
  (* do we need to start listening for new connections? *)
  let opened :=
    match tcp_server_socket s with
    | Some _ => (Return tt, s)
    | None =>
        let s0 :=
          mkServerState None (server_threads s) (sockets_created s)
                        (sockets_closed s) (server_log s)
                        (tl (create_results s)) (listen_results s)
                        (accept_results s) (start_results s) (close_results s) in
        match next_result (create_results s) with
        | Some e => (Raise e, s0)
        | None =>
            let s1 :=
              mkServerState (Some (sockets_created s)) (server_threads s)
                            (S (sockets_created s)) (sockets_closed s)
                            (server_log s) (tl (create_results s))
                            (tl (listen_results s)) (accept_results s)
                            (start_results s) (close_results s) in
            match next_result (listen_results s) with
            | Some e => (Raise e, s1)
            | None => (Return tt, s1)
            end
        end
    end in
  match opened with
  | (Return _, s1) =>
      (* get the next client connection *)
      let s2 := server_logging DEBUG ListeningForConnections s1 in
      let s3 :=
        mkServerState (tcp_server_socket s2) (server_threads s2)
                      (sockets_created s2) (sockets_closed s2) (server_log s2)
                      (create_results s2) (listen_results s2)
                      (tl (accept_results s2)) (start_results s2)
                      (close_results s2) in
      match accept_results s2 with
      | [] | AcceptTimeout :: _ => (Return tt, s3)          (* socket.timeout *)
      | AcceptFails e :: _ => (Raise e, s3)
      | AcceptClient client_address :: _ =>
          let s4 := server_logging INFO (GotConnectionFrom client_address) s3 in
          (* handle the client connection on another thread *)
          let s5 :=
            mkServerState (tcp_server_socket s4)
                          (server_threads s4 ++ [client_address])
                          (sockets_created s4) (sockets_closed s4) (server_log s4)
                          (create_results s4) (listen_results s4)
                          (accept_results s4) (tl (start_results s4))
                          (close_results s4) in
          match next_result (start_results s4) with
          | Some e => (Raise e, s5)
          | None => (Return tt, s5)
          end
      end
  | r => r
  end.

(** [tcp_server_loop]; [polls] is the number of times [is_set()] answers
    [False] before the shutdown event is set, [time.sleep] does nothing to
    the state. *)
Fixpoint tcp_server_loop (polls : nat) (s : server_state)
  : outcome unit * server_state :=
  match polls with
  | O => close_tcp_server_socket s
  | S polls' =>
      let after :=
        match tcp_server_execute s with
        | (Return _, s1) =>
            match server_threads s1 with
            | [] => (Return tt, s1)
            | _ => (Return tt,
                    server_logging DEBUG (ConnectionsActive (len (server_threads s1))) s1)
            end
        | (Raise e, s1) =>
            close_tcp_server_socket
              (server_logging ERROR ServerReportException
                 (server_logging ERROR (UnableToExecuteServer e) s1))
        | (Timeout, s1) => (Timeout, s1)
        end in
      match after with
      | (Return _, s2) => tcp_server_loop polls' s2
      | r => r
      end
  end.

(** A server that has not started listening, with the given environment. *)
Definition stopped_server (creates listens : list (option exn))
           (accepts : list accept_result) (starts closes : list (option exn))
  : server_state :=
  mkServerState None [] 0 [] [] creates listens accepts starts closes.

(** The clients among the results of [accept]. *)
Fixpoint accepted_clients (rs : list accept_result) : list pystr :=
  match rs with
  | [] => []
  | AcceptClient a :: rs' => a :: accepted_clients rs'
  | _ :: rs' => accepted_clients rs'
  end.

(** Every socket created so far is closed or is the one the server holds. *)
Definition sockets_accounted (s : server_state) : Prop :=
  match tcp_server_socket s with
  | None => sockets_closed s = seq 0 (sockets_created s)
  | Some n => sockets_created s = S n /\ sockets_closed s = seq 0 n
  end.

(** * Properties *)

Unset Implicit Arguments.

(** ** Bytes and struct formats *)

Lemma Z_of_byte_range (b : byte) : 0 <= Z_of_byte b < 256.
Proof.
  unfold Z_of_byte. pose proof (Byte.to_N_bounded b). lia.
Qed.

Lemma Z_of_byte_of_Z (z : Z) : Z_of_byte (byte_of_Z z) = z mod 256.
Proof.
  unfold byte_of_Z, Z_of_byte.
  assert (Hr : 0 <= z mod 256 < 256) by (apply Z.mod_pos_bound; lia).
  destruct (Byte.of_N (Z.to_N (z mod 256))) as [b|] eqn:E.
  - apply Byte.to_of_N in E. rewrite E. lia.
  - apply Byte.of_N_None_iff in E. lia.
Qed.

Lemma byte_of_Z_of_byte (b : byte) : byte_of_Z (Z_of_byte b) = b.
Proof.
  unfold byte_of_Z, Z_of_byte.
  pose proof (Byte.to_N_bounded b) as Hb.
  rewrite Z.mod_small by lia.
  rewrite N2Z.id, Byte.of_to_N. reflexivity.
Qed.

Lemma len_app {A : Type} (l1 l2 : list A) : len (l1 ++ l2) = len l1 + len l2.
Proof. unfold len. rewrite length_app. lia. Qed.

Lemma len_nonneg {A : Type} (l : list A) : 0 <= len l.
Proof. unfold len. lia. Qed.

Lemma len_nil_iff {A : Type} (l : list A) : len l = 0 <-> l = [].
Proof.
  unfold len. destruct l; simpl; split; intros H; try reflexivity;
    try discriminate; lia.
Qed.

Lemma length_pack_be (n : nat) (v : Z) : length (pack_be n v) = n.
Proof.
  revert v. induction n as [|n IH]; intros v; simpl.
  - reflexivity.
  - rewrite length_app, IH. simpl. lia.
Qed.

Lemma unpack_be_snoc (l : bytes) (b : byte) :
  unpack_be (l ++ [b]) = unpack_be l * 256 + Z_of_byte b.
Proof. unfold unpack_be. rewrite fold_left_app. reflexivity. Qed.

Lemma unpack_pack_be (n : nat) (v : Z) :
  unpack_be (pack_be n v) = v mod 256 ^ Z.of_nat n.
Proof.
  revert v. induction n as [|n IH]; intros v.
  - simpl. rewrite Z.mod_1_r. reflexivity.
  - cbn [pack_be]. rewrite unpack_be_snoc, IH, Z_of_byte_of_Z.
    rewrite Nat2Z.inj_succ, Z.pow_succ_r by lia.
    rewrite Z.rem_mul_r by lia. lia.
Qed.

Lemma struct_unpack_pack (n : nat) (v : Z) (data : bytes) :
  struct_pack n v = Return data -> struct_unpack n data = Return v.
Proof.
  unfold struct_pack, struct_unpack. intros H.
  destruct ((0 <=? v) && (v <? 256 ^ Z.of_nat n)) eqn:E; [|discriminate].
  injection H as <-. rewrite length_pack_be, Nat.eqb_refl.
  rewrite unpack_pack_be. apply andb_true_iff in E. destruct E as [E1 E2].
  rewrite Z.mod_small by lia. reflexivity.
Qed.

Lemma struct_pack_length (n : nat) (v : Z) (data : bytes) :
  struct_pack n v = Return data -> length data = n.
Proof.
  unfold struct_pack. intros H.
  destruct ((0 <=? v) && (v <? 256 ^ Z.of_nat n)); [|discriminate].
  injection H as <-. apply length_pack_be.
Qed.

Lemma struct_pack_ok (n : nat) (v : Z) :
  0 <= v < 256 ^ Z.of_nat n -> struct_pack n v = Return (pack_be n v).
Proof.
  intros H. unfold struct_pack.
  replace ((0 <=? v) && (v <? 256 ^ Z.of_nat n)) with true; [reflexivity|].
  symmetry. apply andb_true_iff. lia.
Qed.

Lemma unpack_be_range (data : bytes) :
  0 <= unpack_be data < 256 ^ len data.
Proof.
  induction data as [|b l IH] using rev_ind.
  - cbn. lia.
  - rewrite unpack_be_snoc, len_app. pose proof (Z_of_byte_range b).
    pose proof (len_nonneg l). change (len [b]) with 1.
    rewrite Z.pow_add_r by lia. lia.
Qed.

(** ** Slices *)

Lemma slice_assign_first (n : nat) (j : Z) (data : bytes) :
  Z.of_nat n <= j -> slice_assign (repeat x00 n) 0 j data = data.
Proof.
  intros H. unfold slice_assign, len. rewrite repeat_length.
  rewrite Z.min_l by lia. rewrite (Z.min_r j) by lia.
  rewrite Z.max_r by lia. simpl firstn.
  rewrite Nat2Z.id, skipn_all2 by (rewrite repeat_length; lia).
  simpl. apply app_nil_r.
Qed.

Lemma slice_assign_append {A : Type} (acc data : list A) (count : Z) :
  0 <= count -> slice_assign acc (len acc) (len acc + count) data = acc ++ data.
Proof.
  intros H. unfold slice_assign.
  rewrite Z.min_id. rewrite (Z.min_r (len acc + count)) by lia.
  rewrite Z.max_id. unfold len. rewrite Nat2Z.id.
  rewrite firstn_all, skipn_all. rewrite app_nil_r. reflexivity.
Qed.

(** ** The monad *)

Lemma bind_Return {A B : Type} (c : M A) (k : A -> M B) (w w' : world) (a : A) :
  c w = (Return a, w') -> bind c k w = k a w'.
Proof. intros H. unfold bind. rewrite H. reflexivity. Qed.

Lemma bind_Raise {A B : Type} (c : M A) (k : A -> M B) (w w' : world) (e : exn) :
  c w = (Raise e, w') -> bind c k w = (Raise e, w').
Proof. intros H. unfold bind. rewrite H. reflexivity. Qed.

Lemma bind_Timeout {A B : Type} (c : M A) (k : A -> M B) (w w' : world) :
  c w = (Timeout, w') -> bind c k w = (Timeout, w').
Proof. intros H. unfold bind. rewrite H. reflexivity. Qed.

(** ** The socket *)

Lemma recv_world_id (w : world) :
  recv_world w (inbound (sock w)) (recv_sizes (sock w)) = w.
Proof. destruct w as [[] ? ? ? ? ? ? ?]. reflexivity. Qed.

Lemma send_world_id (w : world) :
  send_world w (outbound (sock w)) (send_sizes (sock w)) = w.
Proof. destruct w as [[] ? ? ? ? ? ? ?]. reflexivity. Qed.

Lemma deliver_bounds (sizes : list nat) (asked : nat) :
  (1 <= asked -> 1 <= deliver sizes asked <= asked)%nat.
Proof. unfold deliver. destruct sizes; lia. Qed.

Lemma recv_open (bufsize : Z) (w : world) :
  sock_closed (sock w) = false ->
  recv bufsize w =
  (Return (firstn (deliver (recv_sizes (sock w)) (Z.to_nat bufsize))
                  (inbound (sock w))),
   recv_world w
     (skipn (deliver (recv_sizes (sock w)) (Z.to_nat bufsize)) (inbound (sock w)))
     (tl (recv_sizes (sock w)))).
Proof. intros H. unfold recv, recv_world. rewrite H. reflexivity. Qed.

Lemma send_open (data : bytes) (w : world) :
  sock_closed (sock w) = false ->
  send data w =
  (Return (len (firstn (deliver (send_sizes (sock w)) (length data)) data)),
   send_world w
     (outbound (sock w) ++ firstn (deliver (send_sizes (sock w)) (length data)) data)
     (tl (send_sizes (sock w)))).
Proof. intros H. unfold send, send_world. rewrite H. reflexivity. Qed.

Lemma recv_chunk_bounds (count : Z) :
  0 < count -> 0 < recv_chunk count <= count /\ recv_chunk count <= 8192.
Proof.
  intros H. unfold recv_chunk, DEFAULT_BUFFER_SIZE.
  destruct (Z.ltb_spec 8192 count); lia.
Qed.

(** ** read_n_bytes *)

Lemma read_n_bytes_loop_done (fuel : nat) (count bytes_read : Z) (buf : bytes)
      (w : world) :
  count <= bytes_read ->
  read_n_bytes_loop fuel count bytes_read buf w = (Return (Some buf), w).
Proof.
  intros H. destruct fuel; simpl;
    (destruct (Z.ltb_spec bytes_read count); [lia | reflexivity]).
Qed.

Lemma read_n_bytes_loop_step (fuel : nat) (count : Z) (acc : bytes) (w : world) :
  0 < count -> len acc < count -> sock_closed (sock w) = false ->
  let n := deliver (recv_sizes (sock w)) (Z.to_nat (recv_chunk count)) in
  let data := firstn n (inbound (sock w)) in
  let w' := recv_world w (skipn n (inbound (sock w))) (tl (recv_sizes (sock w))) in
  read_n_bytes_loop (S fuel) count (len acc) acc w =
  match inbound (sock w) with
  | [] => (end_of_stream_result count acc, w')
  | _ => read_n_bytes_loop fuel count (len (acc ++ data)) (acc ++ data) w'
  end.
Proof.
  intros Hc Hlt Hopen n data w'.
  cbn [read_n_bytes_loop].
  destruct (Z.ltb_spec (len acc) count) as [_|]; [|lia].
  fold (recv_chunk count).
  rewrite (bind_Return _ _ _ _ _ (recv_open (recv_chunk count) w Hopen)).
  fold n. fold data. fold w'.
  pose proof (recv_chunk_bounds count Hc) as Hb.
  assert (Hn : (1 <= n)%nat) by (apply deliver_bounds; lia).
  destruct (inbound (sock w)) as [|b inb] eqn:Ein.
  - subst data. rewrite firstn_nil. cbn [len length Z.of_nat Z.eqb andb].
    unfold end_of_stream_result.
    destruct (Z.eqb_spec (len acc) count); [lia|].
    destruct (Z.eqb_spec (len acc) 0); reflexivity.
  - assert (Hd : len data <> 0).
    { subst data. destruct n; [lia|]. cbn. lia. }
    destruct (Z.eqb_spec (len data) 0); [contradiction|].
    cbn [andb]. rewrite slice_assign_append by lia.
    rewrite len_app. reflexivity.
Qed.

(** If no more than [count] bytes are pending, whatever the short reads,
    [read_n_bytes_loop] receives all of them: it returns them if they are
    [count], and otherwise meets the end of the stream. *)
Lemma read_n_bytes_loop_all (count : Z) (Hc : 0 < count) :
  forall (fuel : nat) (acc : bytes) (w : world),
    sock_closed (sock w) = false ->
    len acc + len (inbound (sock w)) <= count ->
    (length (inbound (sock w)) < fuel)%nat ->
    exists sizes,
      read_n_bytes_loop fuel count (len acc) acc w =
      (end_of_stream_result count (acc ++ inbound (sock w)),
       recv_world w [] sizes).
Proof.
  induction fuel as [|fuel IH]; intros acc w Hopen Hle Hfuel; [lia|].
  destruct (Z.ltb_spec (len acc) count) as [Hlt|Hge].
  - rewrite read_n_bytes_loop_step by assumption.
    destruct (inbound (sock w)) as [|b inb] eqn:Ein.
    + rewrite app_nil_r, skipn_nil. eexists; reflexivity.
    + set (n := deliver (recv_sizes (sock w))
                        (Z.to_nat (recv_chunk count))) in *.
      pose proof (recv_chunk_bounds count Hc) as Hb.
      assert (Hn : (1 <= n)%nat) by (apply deliver_bounds; lia).
      set (w' := recv_world w (skipn n (b :: inb)) (tl (recv_sizes (sock w)))).
      pose proof (firstn_skipn n (b :: inb)) as Hsplit.
      assert (Hlen : len (firstn n (b :: inb)) + len (skipn n (b :: inb))
                     = len (b :: inb)).
      { rewrite <- len_app, Hsplit. reflexivity. }
      destruct (IH (acc ++ firstn n (b :: inb)) w') as [sizes Hs].
      * exact Hopen.
      * subst w'. cbn [recv_world set_sock sock inbound].
        rewrite len_app. lia.
      * subst w'. cbn [recv_world set_sock sock inbound].
        rewrite length_skipn. cbn [length] in *. lia.
      * exists sizes. rewrite Hs. subst w'.
        cbn [recv_world set_sock sock inbound].
        rewrite <- app_assoc, Hsplit. reflexivity.
  - assert (Hnil : inbound (sock w) = []).
    { apply len_nil_iff. pose proof (len_nonneg (inbound (sock w))). lia. }
    rewrite read_n_bytes_loop_done by assumption.
    exists (recv_sizes (sock w)).
    rewrite Hnil, app_nil_r. unfold end_of_stream_result.
    pose proof (len_nonneg (inbound (sock w))).
    destruct (Z.eqb_spec (len acc) count); [|lia].
    rewrite <- Hnil, recv_world_id. reflexivity.
Qed.

Lemma round_up_spec (count : Z) :
  0 < count ->
  exists q, round_up count = recv_chunk count * q
            /\ count <= round_up count < count + recv_chunk count.
Proof.
  intros Hc. pose proof (recv_chunk_bounds count Hc) as [Hb _].
  unfold round_up. set (c := recv_chunk count) in *.
  exists ((count + c - 1) / c).
  pose proof (Z.div_mod (count + c - 1) c ltac:(lia)) as Hdm.
  pose proof (Z.mod_pos_bound (count + c - 1) c ltac:(lia)) as Hm.
  split; [apply Z.mul_comm|]. nia.
Qed.

Lemma round_up_exact (count : Z) :
  0 < count ->
  count <= DEFAULT_BUFFER_SIZE \/ count mod DEFAULT_BUFFER_SIZE = 0 ->
  round_up count = count.
Proof.
  intros Hc H. destruct (round_up_spec count Hc) as (q & Hq & Hr).
  unfold recv_chunk, DEFAULT_BUFFER_SIZE in *.
  destruct (Z.ltb_spec 8192 count) as [Hgt|Hle].
  - destruct H as [H|H]; [lia|].
    apply Z.mod_divide in H; [|lia]. destruct H as [j Hj]. nia.
  - assert (q = 1) by nia. subst q. lia.
Qed.

Lemma firstn_plus {A : Type} (n k : nat) (l : list A) :
  firstn (n + k) l = firstn n l ++ firstn k (skipn n l).
Proof.
  revert l. induction n as [|n IH]; intros l; simpl.
  - reflexivity.
  - destruct l as [|x l]; simpl.
    + rewrite firstn_nil. reflexivity.
    + rewrite IH. reflexivity.
Qed.

(** If every [recv] delivers what it is asked for, the loop receives whole
    buffers of [recv_chunk count] bytes until it has [count] or more. *)
Lemma read_n_bytes_loop_full (count : Z) (Hc : 0 < count) :
  forall (fuel : nat) (acc : bytes) (w : world),
    sock_closed (sock w) = false ->
    recv_sizes (sock w) = [] ->
    (recv_chunk count | len acc) ->
    count <= len acc + len (inbound (sock w)) ->
    (length (inbound (sock w)) < fuel)%nat ->
    read_n_bytes_loop fuel count (len acc) acc w =
    (Return (Some (acc ++ firstn (Z.to_nat (round_up count - len acc))
                                 (inbound (sock w)))),
     recv_world w (skipn (Z.to_nat (round_up count - len acc))
                         (inbound (sock w))) []).
Proof.
  destruct (round_up_spec count Hc) as (q & Hq & Hr).
  pose proof (recv_chunk_bounds count Hc) as [Hb _].
  induction fuel as [|fuel IH]; intros acc w Hopen Hfull [j Hj] Hle Hfuel; [lia|].
  destruct (Z.ltb_spec (len acc) count) as [Hlt|Hge].
  - rewrite read_n_bytes_loop_step by assumption.
    rewrite Hfull. cbn [deliver tl].
    assert (Hup : len acc + recv_chunk count <= round_up count).
    { assert (j < q) by nia. nia. }
    destruct (inbound (sock w)) as [|b inb] eqn:Ein.
    { cbn [len length Z.of_nat] in Hle. lia. }
    set (n := Z.to_nat (recv_chunk count)) in *.
    set (w' := recv_world w (skipn n (b :: inb)) []).
    destruct (Nat.le_gt_cases n (length (b :: inb))) as [Hlong|Hshort].
    + assert (Hdata : len (firstn n (b :: inb)) = recv_chunk count).
      { unfold len. rewrite length_firstn. lia. }
      pose proof (firstn_skipn n (b :: inb)) as Hsplit.
      assert (Hlen : len (firstn n (b :: inb)) + len (skipn n (b :: inb))
                     = len (b :: inb)).
      { rewrite <- len_app, Hsplit. reflexivity. }
      rewrite (IH (acc ++ firstn n (b :: inb)) w').
      * subst w'. cbn [recv_world set_sock sock inbound].
        rewrite len_app, Hdata.
        replace (Z.to_nat (round_up count - len acc))
          with (n + Z.to_nat (round_up count - (len acc + recv_chunk count)))%nat
          by lia.
        rewrite firstn_plus, <- app_assoc, skipn_skipn.
        rewrite (Nat.add_comm n). reflexivity.
      * exact Hopen.
      * reflexivity.
      * rewrite len_app, Hdata. exists (j + 1). lia.
      * subst w'. cbn [recv_world set_sock sock inbound].
        rewrite len_app. lia.
      * subst w'. cbn [recv_world set_sock sock inbound].
        rewrite length_skipn. cbn [length] in *. lia.
    + rewrite firstn_all2 by lia.
      rewrite read_n_bytes_loop_done by (rewrite len_app; lia).
      assert (Hk : (length (b :: inb)
                    <= Z.to_nat (round_up count - len acc))%nat) by lia.
      rewrite firstn_all2 by exact Hk.
      subst w'. rewrite !skipn_all2 by lia. reflexivity.
  - assert (Hdone : round_up count - len acc <= 0).
    { assert (q <= j) by nia. nia. }
    rewrite read_n_bytes_loop_done by assumption.
    replace (Z.to_nat (round_up count - len acc)) with 0%nat by lia.
    cbn [firstn skipn]. rewrite app_nil_r, <- Hfull, recv_world_id.
    reflexivity.
Qed.

Lemma read_n_bytes_loop_zeros (fuel : nat) (count : Z) (w : world) :
  0 < count ->
  read_n_bytes_loop fuel count 0 (repeat x00 (Z.to_nat count)) w =
  read_n_bytes_loop fuel count 0 [] w.
Proof.
  intros Hc. destruct fuel as [|fuel]; cbn [read_n_bytes_loop];
    destruct (Z.ltb_spec 0 count); try lia; try reflexivity.
  unfold bind. destruct (recv _ w) as [[data|e|] w']; try reflexivity.
  rewrite slice_assign_first by lia.
  change (0 + count) with (len (@nil byte) + count).
  change 0 with (len (@nil byte)) at 4.
  rewrite slice_assign_append by lia. reflexivity.
Qed.

Lemma read_n_bytes_unfold (count : Z) (w : world) :
  0 < count ->
  read_n_bytes count w =
  read_n_bytes_loop (S (length (inbound (sock w)))) count (len (@nil byte)) [] w.
Proof.
  intros Hc. unfold read_n_bytes.
  destruct (Z.eqb_spec count 0); [lia|].
  destruct (Z.ltb_spec count 0); [lia|].
  apply read_n_bytes_loop_zeros. assumption.
Qed.

(** [read_n_bytes] on a stream that ends within the bytes asked for. *)
Lemma read_n_bytes_all (count : Z) (w : world) :
  0 < count ->
  sock_closed (sock w) = false ->
  len (inbound (sock w)) <= count ->
  exists sizes,
    read_n_bytes count w =
    (end_of_stream_result count (inbound (sock w)), recv_world w [] sizes).
Proof.
  intros Hc Hopen Hle. rewrite read_n_bytes_unfold by assumption.
  apply (read_n_bytes_loop_all count Hc (S (length (inbound (sock w)))) [] w);
    try assumption; cbn [len length Z.of_nat]; lia.
Qed.

(** [read_n_bytes] when every [recv] delivers what it is asked for: the
    result is the next [round_up count] bytes, as far as they are pending. *)
Lemma read_n_bytes_full (count : Z) (w : world) :
  0 < count ->
  sock_closed (sock w) = false ->
  recv_sizes (sock w) = [] ->
  count <= len (inbound (sock w)) ->
  read_n_bytes count w =
  (Return (Some (firstn (Z.to_nat (round_up count)) (inbound (sock w)))),
   recv_world w (skipn (Z.to_nat (round_up count)) (inbound (sock w))) []).
Proof.
  intros Hc Hopen Hfull Hle. rewrite read_n_bytes_unfold by assumption.
  rewrite (read_n_bytes_loop_full count Hc (S (length (inbound (sock w)))) [] w);
    try assumption.
  - cbn [len length Z.of_nat app]. rewrite Z.sub_0_r. reflexivity.
  - exists 0. reflexivity.
  - lia.
Qed.

Lemma firstn_length_app {A : Type} (l1 l2 : list A) :
  firstn (length l1) (l1 ++ l2) = l1.
Proof. induction l1 as [|x l1 IH]; simpl; [reflexivity | now rewrite IH]. Qed.

Lemma skipn_length_app {A : Type} (l1 l2 : list A) :
  skipn (length l1) (l1 ++ l2) = l2.
Proof. induction l1 as [|x l1 IH]; simpl; [reflexivity | exact IH]. Qed.

Lemma read_n_bytes_exact (count : Z) (w : world) (data rest : bytes) :
  0 < count ->
  sock_closed (sock w) = false ->
  recv_sizes (sock w) = [] ->
  inbound (sock w) = data ++ rest ->
  len data = count ->
  exact_read count rest ->
  read_n_bytes count w = (Return (Some data), recv_world w rest []).
Proof.
  intros Hc Hopen Hfull Hin Hlen Hex.
  rewrite read_n_bytes_full; try assumption.
  2:{ rewrite Hin, len_app. pose proof (len_nonneg rest). lia. }
  rewrite Hin. destruct (round_up_spec count Hc) as (q & Hq & Hr).
  destruct Hex as [H|[H|H]].
  - rewrite round_up_exact by auto. rewrite <- Hlen. unfold len.
    rewrite Nat2Z.id, firstn_length_app, skipn_length_app. reflexivity.
  - rewrite round_up_exact by auto. rewrite <- Hlen. unfold len.
    rewrite Nat2Z.id, firstn_length_app, skipn_length_app. reflexivity.
  - subst rest. rewrite app_nil_r. unfold len in *.
    rewrite firstn_all2, skipn_all2 by lia. reflexivity.
Qed.



(** ** write_n_bytes *)

Lemma wrote_nil (w : world) : wrote w w [].
Proof.
  exists (send_sizes (sock w)). rewrite app_nil_r, send_world_id. reflexivity.
Qed.

Lemma wrote_trans (w w1 w2 : world) (a b : bytes) :
  wrote w w1 a -> wrote w1 w2 b -> wrote w w2 (a ++ b).
Proof.
  intros [s1 ->] [s2 ->]. exists s2. cbn. rewrite app_assoc. reflexivity.
Qed.

Lemma wrote_frame (w w' : world) (data : bytes) :
  wrote w w' data ->
  sock_closed (sock w') = sock_closed (sock w)
  /\ ENCRYPTION_PASSWORD w' = ENCRYPTION_PASSWORD w
  /\ crypto w' = crypto w
  /\ fs w' = fs w
  /\ outbound (sock w') = outbound (sock w) ++ data.
Proof. intros [s ->]. cbn. auto. Qed.

Lemma write_n_bytes_loop_ok (data : bytes) :
  forall (fuel wr : nat) (w : world),
    sock_closed (sock w) = false ->
    (wr <= length data)%nat ->
    (length data - wr <= fuel)%nat ->
    exists w', write_n_bytes_loop fuel data (Z.of_nat wr) w = (Return tt, w')
               /\ wrote w w' (skipn wr data).
Proof.
  induction fuel as [|fuel IH]; intros wr w Hopen Hwr Hfuel.
  - exists w. cbn [write_n_bytes_loop]. unfold len.
    destruct (Z.ltb_spec (Z.of_nat wr) (Z.of_nat (length data))); [lia|].
    split; [reflexivity|]. rewrite skipn_all2 by lia. apply wrote_nil.
  - cbn [write_n_bytes_loop]. unfold len at 1.
    destruct (Z.ltb_spec (Z.of_nat wr) (Z.of_nat (length data))) as [Hlt|Hge].
    + set (chunk := if DEFAULT_BUFFER_SIZE <? len data
                    then DEFAULT_BUFFER_SIZE else len data).
      assert (Hchunk : 0 < chunk).
      { subst chunk. unfold DEFAULT_BUFFER_SIZE, len.
        destruct (8192 <? Z.of_nat (length data)); lia. }
      set (piece := slice data (Z.of_nat wr) (Z.of_nat wr + chunk)).
      assert (Hpiece : piece = firstn (Z.to_nat chunk) (skipn wr data)).
      { subst piece. unfold slice. rewrite Nat2Z.id. f_equal. lia. }
      assert (Hplen : (1 <= length piece <= length data - wr)%nat).
      { rewrite Hpiece, length_firstn, length_skipn. lia. }
      rewrite (bind_Return _ _ _ _ _ (send_open piece w Hopen)).
      set (n := deliver (send_sizes (sock w)) (length piece)).
      assert (Hn : (1 <= n <= length piece)%nat)
        by (apply deliver_bounds; lia).
      assert (Hsent : firstn n piece = firstn n (skipn wr data)).
      { rewrite Hpiece, firstn_firstn. f_equal.
        rewrite Hpiece, length_firstn in Hn. lia. }
      assert (Hlen : len (firstn n piece) = Z.of_nat n).
      { unfold len. rewrite length_firstn. lia. }
      rewrite Hlen, <- Nat2Z.inj_add.
      set (w1 := send_world w _ _).
      destruct (IH (wr + n)%nat w1) as (w' & Hrun & Hw'); try lia.
      { exact Hopen. }
      exists w'. split; [exact Hrun|].
      replace (skipn wr data)
        with (firstn n piece ++ skipn (wr + n) data).
      * eapply wrote_trans; [|exact Hw'].
        exists (tl (send_sizes (sock w))). reflexivity.
      * rewrite Hsent, Nat.add_comm, <- skipn_skipn. apply firstn_skipn.
    + exists w. split; [reflexivity|].
      rewrite skipn_all2 by lia. apply wrote_nil.
Qed.

(** [write_n_bytes] writes all of [data], whatever the short writes. *)
Lemma write_n_bytes_ok (data : bytes) (w : world) :
  sock_closed (sock w) = false ->
  exists w', write_n_bytes data w = (Return tt, w') /\ wrote w w' data.
Proof.
  intros Hopen.
  destruct (write_n_bytes_loop_ok data (length data) 0 w Hopen) as (w' & H1 & H2);
    try lia.
  exists w'. split; assumption.
Qed.

Lemma write_uint_ok (value : Z) (w : world) :
  sock_closed (sock w) = false ->
  0 <= value < 2 ^ 32 ->
  exists w', write_uint value w = (Return tt, w')
             /\ wrote w w' (pack_be UINT_SIZE value).
Proof.
  intros Hopen Hv. unfold write_uint.
  destruct (write_n_bytes_ok (pack_be UINT_SIZE value) w Hopen) as (w' & H1 & H2).
  exists w'. split; [|exact H2].
  unfold bind, lift. rewrite struct_pack_ok; [exact H1|].
  change (256 ^ Z.of_nat UINT_SIZE) with (2 ^ 32). exact Hv.
Qed.

(** ** The serving loop on sample connections *)

(** The value returned by [tcp_client_execute] has no effect on the loop. *)
Lemma tcp_client_serve_ignores_result
      (self : ACENetworkProtocolServer) (polls : nat) (a : pystr)
      (w w' : world) (r : option bool) :
  tcp_client_execute self a w = (Return r, w') ->
  tcp_client_serve self (S polls) a false w = tcp_client_serve self polls a false w'.
Proof.
  intros H. cbn [tcp_client_serve]. unfold bind at 1, try_except.
  unfold bind at 1. rewrite H. reflexivity.
Qed.

(** C1 (defect).  The peer sends EXIT, then REGISTER, and closes; the
    shutdown event is set after three polls.  The worker goes on after EXIT:
    it decodes REGISTER, calls the handler on it, and still asks the closed
    stream for a third message. *)
Theorem C1_serving_goes_on_after_exit :
  let w := sample_world (frame ANPCommandEXIT ++ frame ANPCommandREGISTER)
                        [4; 4; 4; 4; 4]%nat in
  let r := tcp_client_loop sample_server 3 sample_address 1 w in
  fst r = Return tt
  /\ log (snd r) =
     [ (INFO, ReceivedCommand ANPCommandEXIT sample_address);
       (INFO, ReceivedCommand ANPCommandREGISTER sample_address) ]
  /\ handler_calls (snd r) = [ANPCommandREGISTER]
  /\ outbound (sock (snd r)) = frame ANPCommandOK
  /\ recv_sizes (sock (snd r)) = [4; 4]%nat.
Proof. vm_compute. repeat split; reflexivity. Qed.

(** C2 (defect).  [read_n_bytes 4] after a short read of one byte asks for
    four more bytes and returns five; and without any short read
    [read_n_bytes 8193] takes a second full buffer and returns all of the
    8200 pending bytes. *)
Theorem C2_read_n_bytes_returns_more_than_asked :
  read_n_bytes 4 (sample_world [x01; x02; x03; x04; x05] [1%nat]) =
  (Return (Some [x01; x02; x03; x04; x05]), sample_world [] [])
  /\ read_n_bytes 8193 (sample_world (repeat x41 (Z.to_nat 8200)) []) =
     (Return (Some (repeat x41 (Z.to_nat 8200))), sample_world [] []).
Proof. split; vm_compute; reflexivity. Qed.

Lemma close_socket_closes (w : world) :
  fst (close_socket w) = Return tt /\ sock_closed (sock (snd (close_socket w))) = true.
Proof.
  unfold close_socket, bind, try_except, socket_shutdown, socket_close, ret.
  destruct (sock_closed (sock w)); split; reflexivity.
Qed.

(** What the worker does to its socket after the loop comes to nothing. *)
Lemma tcp_client_loop_shutdown_does_nothing
      (self : ACENetworkProtocolServer) (polls : nat) (a : pystr) (t : Z)
      (w : world) :
  tcp_client_loop self polls a t w =
  (tcp_client_serve self polls a false ;;;
   fun w' =>
     match list_remove t (tcp_client_threads w') with
     | Some l => (Return tt, set_tcp_client_threads l w')
     | None => (Raise ValueError, w')
     end) w.
Proof.
  unfold tcp_client_loop, bind.
  destruct (tcp_client_serve self polls a false w) as [[[]|e|] w']; reflexivity.
Qed.

(** C9 (defect).  On the exit paths of the worker (a decode error, the
    shutdown event after EXIT, the shutdown event after a failure of the
    handler, the shutdown event before the first message) the socket is left
    open: [shutdown()] is called without its argument, the [TypeError] is
    swallowed, and [close] is not called at all. *)
Theorem C9_worker_leaves_socket_open :
  let run := fun pending polls =>
               tcp_client_loop sample_server polls sample_address 1
                               (sample_world pending []) in
  let left_open := fun r : outcome unit * world =>
                     fst r = Return tt
                     /\ sock_closed (sock (snd r)) = false
                     /\ sock_shutdown (sock (snd r)) = false
                     /\ tcp_client_threads (snd r) = [] in
  left_open (run UNKNOWN_9999 3%nat)
  /\ left_open (run (frame ANPCommandEXIT) 2%nat)
  /\ left_open (run (frame (ANPCommandPROCESS (PyStr [120]))) 2%nat)
  /\ left_open (run (frame ANPCommandREGISTER) 0%nat).
Proof. vm_compute. repeat split; reflexivity. Qed.

(** C8 (defect).  A source of 8193 bytes is written as one block and one
    empty block, as it should be; reading that stream back, the block of
    8193 bytes is received with a second full buffer, which takes the four
    bytes of the terminator along: they end up in the sink, no terminator is
    left to be read, and writing the [None] of the closed stream fails. *)
Theorem C8_chunked_stream_not_reproduced :
  let data := repeat x41 (Z.to_nat 8193) in
  let wire := outbound (sock (snd (write_chunked_data data (sample_world [] [])))) in
  let r := (fp <- open_wb sample_sink ;; read_chunked_data fp)
             (sample_world wire []) in
  wire = pack_be 4 8193 ++ data ++ pack_be 4 0
  /\ fst r = Raise TypeError
  /\ fs_get (fs_files (fs (snd r))) sample_sink
     = Some (data ++ [x00; x00; x00; x00]).
Proof. vm_compute. repeat split; reflexivity. Qed.

(** C3, as stated, fails: the peer writes the command id of PING and closes;
    [recv_message] raises nothing and returns a PING whose message is
    [None]. *)
Lemma C3_counterexample :
  recv_message (sample_world (pack_be 4 ANP_COMMAND_PING) []) =
  (Return (Some (ANPCommandPING PyNone)), sample_world [] []).
Proof. vm_compute. reflexivity. Qed.


(** C5, as stated, fails: with a password a block of length zero is handed
    out without being decrypted; and a password that is set but empty makes
    [read_data] decrypt what [write_data] does not encrypt. *)
Lemma C5_counterexample :
  let w := with_password (Some [x6b]) (sample_world (pack_be 4 0) []) in
  let w0 := with_password (Some []) (sample_world [] []) in
  fst (read_data w) = Return (Some [])
  /\ decrypt_chunk (crypto w) [x6b] (Some []) = Raise ValueError
  /\ outbound (sock (snd (write_data [x41] w0))) = pack_be 4 1 ++ [x41]
  /\ encrypt_chunk (crypto w0) [] [x41] = Return [xa5; x41]
  /\ fst (read_data (with_password (Some [])
                       (sample_world (pack_be 4 1 ++ [x41]) [])))
     = Raise ValueError.
Proof. vm_compute. repeat split; reflexivity. Qed.

(** C6, as stated, fails: the handler raises on PROCESS, the error is
    logged, and the same connection goes on to serve REGISTER. *)
Lemma C6_counterexample :
  let p := ANPCommandPROCESS (PyStr [120]) in
  let w := sample_world (frame p ++ frame ANPCommandREGISTER) [] in
  let r := tcp_client_loop sample_server 2 sample_address 1 w in
  fst (sample_handler p (sample_world [] [])) = Raise (RuntimeError 1)
  /\ fst r = Return tt
  /\ log (snd r) =
     [ (INFO, ReceivedCommand p sample_address);
       (ERROR, ErrorProcessingCommand p (RuntimeError 1));
       (ERROR, ReportException);
       (INFO, ReceivedCommand ANPCommandREGISTER sample_address) ]
  /\ handler_calls (snd r) = [p; ANPCommandREGISTER]
  /\ outbound (sock (snd r)) = frame ANPCommandOK.
Proof. vm_compute. repeat split; reflexivity. Qed.

(** ** The command table *)

Lemma bind_inv {A B : Type} (c : M A) (k : A -> M B) (w w' : world) (b : B) :
  bind c k w = (Return b, w') ->
  exists a w1, c w = (Return a, w1) /\ k a w1 = (Return b, w').
Proof.
  unfold bind. destruct (c w) as [[a|e|] w1]; intros H; try discriminate.
  exists a, w1. split; [reflexivity | exact H].
Qed.

Ltac bind_inv H :=
  let a := fresh "a" in
  let w1 := fresh "w" in
  let H1 := fresh "H" in
  apply bind_inv in H; destruct H as (a & w1 & H1 & H).

Lemma dict_get_unknown (c : Z) :
  ~ 1 <= c <= 10 -> dict_get ANP_CLASS_LOOKUP c = @None (pyval -> ANPMessage).
Proof.
  intros H. cbv [dict_get ANP_CLASS_LOOKUP ANP_COMMAND_EXIT ANP_COMMAND_REGISTER
    ANP_COMMAND_OK ANP_COMMAND_ERROR ANP_COMMAND_PING ANP_COMMAND_PONG
    ANP_COMMAND_AVAILABLE ANP_COMMAND_COPY_FILE ANP_COMMAND_PROCESS
    ANP_COMMAND_BUSY].
  repeat match goal with
         | |- context [?k =? c] => destruct (Z.eqb_spec k c); [lia|]
         end.
  reflexivity.
Qed.

Lemma dict_get_known (c : Z) (cls : pyval -> ANPMessage) :
  dict_get ANP_CLASS_LOOKUP c = Some cls ->
  1 <= c <= 10 /\ forall a, command (cls a) = c /\ variant_of (cls a) = variant_of (cls PyNone).
Proof.
  cbv [dict_get ANP_CLASS_LOOKUP ANP_COMMAND_EXIT ANP_COMMAND_REGISTER
    ANP_COMMAND_OK ANP_COMMAND_ERROR ANP_COMMAND_PING ANP_COMMAND_PONG
    ANP_COMMAND_AVAILABLE ANP_COMMAND_COPY_FILE ANP_COMMAND_PROCESS
    ANP_COMMAND_BUSY].
  repeat match goal with
         | |- context [?k =? c] =>
             destruct (Z.eqb_spec k c);
             [intros H; injection H as <-; subst c;
              split; [lia | intros a; split; reflexivity] |]
         end.
  discriminate.
Qed.

Lemma dict_get_contract (v : variant) :
  exists cls, dict_get ANP_CLASS_LOOKUP (wire_contract v) = Some cls
              /\ forall a, variant_of (cls a) = v.
Proof. destruct v; eexists; split; try reflexivity; intros a; reflexivity. Qed.

Lemma wire_contract_range (c : Z) :
  1 <= c <= 10 -> exists v, wire_contract v = c.
Proof.
  intros H.
  assert (Hc : c = 1 \/ c = 2 \/ c = 3 \/ c = 4 \/ c = 5 \/ c = 6 \/ c = 7
               \/ c = 8 \/ c = 9 \/ c = 10) by lia.
  repeat destruct Hc as [Hc|Hc]; subst c;
    [ exists EXIT | exists REGISTER | exists OK | exists ERROR_ | exists PING
    | exists PONG | exists AVAILABLE | exists COPY_FILE | exists PROCESS
    | exists BUSY ]; reflexivity.
Qed.

Lemma recv_parameters_variant (m m' : ANPMessage) (w w' : world) :
  recv_parameters m w = (Return m', w') ->
  variant_of m' = variant_of m /\ command m' = command m.
Proof.
  destruct m; cbn [recv_parameters]; intros H;
    try (injection H as <- _; split; reflexivity);
    try (bind_inv H; injection H as <- _; split; reflexivity).
  repeat bind_inv H. injection H as <- _. split; reflexivity.
Qed.

(** C7.  Once [read_uint] has read the command id [c]: if [c] is none of
    1..10, [recv_message] raises the [ANPException] for an unknown command,
    having read nothing more; if it is one of them, the table gives the class
    of the variant to which the wire contract assigns [c], [recv_message]
    goes on to read the parameters of an instance of that class, and what it
    returns is of that variant. *)
Theorem C7_command_ids_resolve (w w1 : world) (c : Z) :
  read_uint w = (Return (Some c), w1) ->
  (~ 1 <= c <= 10 ->
   recv_message w = (Raise (ANPException (UnknownCommand c)), w1))
  /\ (1 <= c <= 10 ->
      exists v cls,
        wire_contract v = c
        /\ dict_get ANP_CLASS_LOOKUP c = Some cls
        /\ variant_of (cls PyANPSocket) = v
        /\ recv_message w =
           (result <- recv_parameters (cls PyANPSocket) ;; ret (Some result)) w1
        /\ forall m w2, recv_message w = (Return (Some m), w2) ->
                        variant_of m = v /\ command m = c).
Proof.
  intros Hread. split.
  - intros Hc. unfold recv_message.
    rewrite (bind_Return _ _ _ _ _ Hread).
    rewrite dict_get_unknown by assumption. reflexivity.
  - intros Hc. destruct (wire_contract_range c Hc) as [v Hv].
    destruct (dict_get_contract v) as (cls & Hcls & Hvar).
    rewrite Hv in Hcls.
    assert (Hrun : recv_message w =
                   (result <- recv_parameters (cls PyANPSocket) ;;
                    ret (Some result)) w1).
    { unfold recv_message. rewrite (bind_Return _ _ _ _ _ Hread).
      rewrite Hcls. reflexivity. }
    exists v, cls. repeat split; auto.
    + rewrite Hrun in H. bind_inv H. injection H as <- _.
      apply recv_parameters_variant in H0. destruct H0 as [H0 _].
      rewrite H0. apply Hvar.
    + rewrite Hrun in H. bind_inv H. injection H as <- _.
      apply recv_parameters_variant in H0. destruct H0 as [_ H0].
      rewrite H0. apply (dict_get_known c cls Hcls).
Qed.

Lemma C7_witness :
  recv_message (sample_world UNKNOWN_9999 []) =
  (Raise (ANPException (UnknownCommand 9999)), sample_world [] []).
Proof.
  apply (C7_command_ids_resolve (sample_world UNKNOWN_9999 [])
                                (sample_world [] []) 9999).
  - vm_compute. reflexivity.
  - lia.
Defined.

Lemma command_range (m : ANPMessage) : 1 <= command m <= 10.
Proof. destruct m; cbv; split; discriminate. Qed.

(** C10.  A class of the lookup table, found under the id [c], makes
    messages whose [command] is [c], whatever it is called with; so a message
    that [recv_message] returns after reading the id [c] has the command
    [c], and [send_message] starts by writing the four bytes of [c] before
    it sends the parameters. *)
Theorem C10_command_attribute_matches_table
        (c : Z) (cls : pyval -> ANPMessage) :
  dict_get ANP_CLASS_LOOKUP c = Some cls ->
  (forall a, command (cls a) = c)
  /\ (forall w w1 m w',
         read_uint w = (Return (Some c), w1) ->
         recv_message w = (Return (Some m), w') ->
         command m = c
         /\ forall ws, sock_closed (sock ws) = false ->
              exists ws1,
                write_uint c ws = (Return tt, ws1)
                /\ wrote ws ws1 (pack_be UINT_SIZE c)
                /\ send_message m ws = send_parameters m ws1).
Proof.
  intros Hcls. destruct (dict_get_known c cls Hcls) as [Hc Hcmd]. split.
  - intros a. apply Hcmd.
  - intros w w1 m w' Hread Hrecv.
    assert (Hm : command m = c).
    { unfold recv_message in Hrecv.
      rewrite (bind_Return _ _ _ _ _ Hread), Hcls in Hrecv.
      bind_inv Hrecv. injection Hrecv as <- _.
      apply recv_parameters_variant in H. destruct H as [_ H].
      rewrite H. apply Hcmd. }
    split; [exact Hm|]. intros ws Hopen.
    destruct (write_uint_ok c ws Hopen) as (ws1 & Hw & Hwrote); [lia|].
    exists ws1. repeat split; try assumption.
    unfold send_message. rewrite Hm.
    rewrite (bind_Return _ _ _ _ _ Hw). reflexivity.
Qed.

Lemma C10_witness :
  command (ANPCommandPING (PyStr [104; 105])) = 5.
Proof.
  apply (proj1 (C10_command_attribute_matches_table
                  5 (fun a => ANPCommandPING a) eq_refl)).
Defined.

(** ** Failures of the handler *)

(** C6, amended.  When the handler raises on a decoded message other than
    EXIT, [tcp_client_execute] catches the exception, logs it and reports
    it, and returns normally, so nothing reaches the worker or the server;
    the connection is not torn down: the serving loop goes on with its next
    turn. *)
Theorem C6_handler_failure_is_logged_and_serving_goes_on
        (self : ACENetworkProtocolServer) (a : pystr)
        (w w1 w2 : world) (m : ANPMessage) (e : exn) :
  recv_message w = (Return (Some m), w1) ->
  command m <> ANP_COMMAND_EXIT ->
  call_handler self m
    (set_log (log w1 ++ [(INFO, ReceivedCommand m a)]) w1) = (Raise e, w2) ->
  let w3 := set_log (log w2 ++ [(ERROR, ErrorProcessingCommand m e);
                                (ERROR, ReportException)]) w2 in
  tcp_client_execute self a w = (Return None, w3)
  /\ forall polls,
       tcp_client_serve self (S polls) a false w =
       tcp_client_serve self polls a false w3.
Proof.
  intros Hrecv Hexit Hcall w3.
  assert (Hexec : tcp_client_execute self a w = (Return None, w3)).
  { unfold tcp_client_execute. rewrite (bind_Return _ _ _ _ _ Hrecv).
    unfold bind at 1. cbn [logging].
    destruct (Z.eqb_spec (command m) ANP_COMMAND_EXIT); [contradiction|].
    unfold bind at 1, try_except. rewrite Hcall.
    unfold bind, logging, ret. subst w3. cbn.
    rewrite <- app_assoc. reflexivity. }
  split; [exact Hexec|].
  intros polls. eapply tcp_client_serve_ignores_result. exact Hexec.
Qed.

Lemma C6_witness :
  let p := ANPCommandPROCESS (PyStr [120]) in
  tcp_client_execute sample_server sample_address
                     (sample_world (frame p ++ frame ANPCommandREGISTER) []) =
  (Return None,
   mkWorld (mkSocket (frame ANPCommandREGISTER) [] [] [] false false)
           (mkFs [] [])
           [ (INFO, ReceivedCommand p sample_address);
             (ERROR, ErrorProcessingCommand p (RuntimeError 1));
             (ERROR, ReportException) ]
           [p] [1] None sample_home sample_crypto).
Proof.
  intros p.
  refine (proj1 (C6_handler_failure_is_logged_and_serving_goes_on
                   sample_server sample_address
                   (sample_world (frame p ++ frame ANPCommandREGISTER) [])
                   (sample_world (frame ANPCommandREGISTER) [])
                   (mkWorld (mkSocket (frame ANPCommandREGISTER) [] [] [] false false)
                            (mkFs [] [])
                            [(INFO, ReceivedCommand p sample_address)]
                            [p] [1] None sample_home sample_crypto)
                   p (RuntimeError 1) _ _ _)).
  - vm_compute. reflexivity.
  - vm_compute. discriminate.
  - vm_compute. reflexivity.
Defined.

(** ** Integers, blocks and strings at the end of the stream *)

Lemma recv_world_closed (w : world) (pending : bytes) (sizes : list nat) :
  sock_closed (sock (recv_world w pending sizes)) = sock_closed (sock w).
Proof. reflexivity. Qed.

Lemma recv_world_again (w : world) (p1 p2 : bytes) (s1 s2 : list nat) :
  recv_world (recv_world w p1 s1) p2 s2 = recv_world w p2 s2.
Proof. reflexivity. Qed.

Lemma read_uint_closed (w : world) :
  sock_closed (sock w) = false ->
  inbound (sock w) = [] ->
  exists sizes, read_uint w = (Return None, recv_world w [] sizes).
Proof.
  intros Hopen Hin.
  destruct (read_n_bytes_all 4 w) as [sizes H]; try assumption; try lia.
  { rewrite Hin. cbn. lia. }
  exists sizes. unfold read_uint. change (Z.of_nat UINT_SIZE) with 4.
  rewrite Hin in H. change (end_of_stream_result 4 []) with
    (@Return (option bytes) None) in H.
  rewrite (bind_Return _ _ _ _ _ H). reflexivity.
Qed.

Lemma read_uint_last (w : world) :
  sock_closed (sock w) = false ->
  length (inbound (sock w)) = 4%nat ->
  exists sizes,
    read_uint w = (Return (Some (unpack_be (inbound (sock w)))),
                   recv_world w [] sizes).
Proof.
  intros Hopen Hin.
  destruct (read_n_bytes_all 4 w) as [sizes H]; try assumption; try lia.
  { unfold len. lia. }
  exists sizes. unfold read_uint. change (Z.of_nat UINT_SIZE) with 4.
  assert (He : end_of_stream_result 4 (inbound (sock w))
               = Return (Some (inbound (sock w)))).
  { unfold end_of_stream_result, len. rewrite Hin. reflexivity. }
  rewrite He in H.
  rewrite (bind_Return _ _ _ _ _ H). unfold bind, lift, struct_unpack.
  rewrite Hin. reflexivity.
Qed.

Lemma read_uint_truncated (w : world) :
  sock_closed (sock w) = false ->
  0 < len (inbound (sock w)) < 4 ->
  exists sizes,
    read_uint w = (Raise (ANPException (EndOfStream (4 - len (inbound (sock w))))),
                   recv_world w [] sizes).
Proof.
  intros Hopen Hin.
  destruct (read_n_bytes_all 4 w) as [sizes H]; try assumption; try lia.
  exists sizes. unfold read_uint. change (Z.of_nat UINT_SIZE) with 4.
  unfold end_of_stream_result in H.
  destruct (Z.eqb_spec (len (inbound (sock w))) 4); [lia|].
  destruct (Z.eqb_spec (len (inbound (sock w))) 0); [lia|].
  rewrite (bind_Raise _ _ _ _ _ H). reflexivity.
Qed.

Lemma read_uint_exact (w : world) (d rest : bytes) :
  sock_closed (sock w) = false ->
  recv_sizes (sock w) = [] ->
  inbound (sock w) = d ++ rest ->
  length d = 4%nat ->
  read_uint w = (Return (Some (unpack_be d)), recv_world w rest []).
Proof.
  intros Hopen Hfull Hin Hd. unfold read_uint.
  change (Z.of_nat UINT_SIZE) with 4.
  rewrite (bind_Return _ _ _ _ _
             (read_n_bytes_exact 4 w d rest ltac:(lia) Hopen Hfull Hin
                ltac:(unfold len; lia)
                ltac:(left; unfold DEFAULT_BUFFER_SIZE; lia))).
  unfold bind, lift, struct_unpack. rewrite Hd. reflexivity.
Qed.

Lemma unpack_pack_uint (v : Z) :
  0 <= v < 2 ^ 32 -> unpack_be (pack_be 4 v) = v.
Proof.
  intros H. rewrite unpack_pack_be. apply Z.mod_small.
  change (256 ^ Z.of_nat 4) with (2 ^ 32). exact H.
Qed.

Lemma read_data_closed (w : world) :
  sock_closed (sock w) = false ->
  inbound (sock w) = [] ->
  exists sizes, read_data w = (Return None, recv_world w [] sizes).
Proof.
  intros Hopen Hin. destruct (read_uint_closed w Hopen Hin) as [sizes H].
  exists sizes. unfold read_data. rewrite (bind_Return _ _ _ _ _ H).
  reflexivity.
Qed.

Lemma read_string_closed (w : world) :
  sock_closed (sock w) = false ->
  inbound (sock w) = [] ->
  exists sizes, read_string w = (Return None, recv_world w [] sizes).
Proof.
  intros Hopen Hin. destruct (read_data_closed w Hopen Hin) as [sizes H].
  exists sizes. unfold read_string. rewrite (bind_Return _ _ _ _ _ H).
  reflexivity.
Qed.

Lemma read_string_truncated (w : world) :
  sock_closed (sock w) = false ->
  0 < len (inbound (sock w)) < 4 ->
  exists sizes,
    read_string w = (Raise (ANPException (EndOfStream (4 - len (inbound (sock w))))),
                     recv_world w [] sizes).
Proof.
  intros Hopen Hin. destruct (read_uint_truncated w Hopen Hin) as [sizes H].
  exists sizes. unfold read_string, read_data.
  rewrite (bind_Raise _ _ _ _ _ (bind_Raise _ _ _ _ _ H)). reflexivity.
Qed.

Lemma recv_message_step (w w1 : world) (c : Z) (cls : pyval -> ANPMessage) :
  read_uint w = (Return (Some c), w1) ->
  dict_get ANP_CLASS_LOOKUP c = Some cls ->
  recv_message w =
  (result <- recv_parameters (cls PyANPSocket) ;; ret (Some result)) w1.
Proof.
  intros Hread Hcls. unfold recv_message.
  rewrite (bind_Return _ _ _ _ _ Hread), Hcls. reflexivity.
Qed.

(** C3, amended.  On an open connection: if the peer closes before any byte
    of a frame, [recv_message] returns [None]; if it closes right after the
    command id of ERROR, PING, PONG or PROCESS, no error is raised and the
    message is returned with [None] for its string, and for COPY_FILE the
    [None] path makes [os.path.join] fail with a [TypeError]; the
    [ANPException] for an early end of the stream is raised when the peer
    closes after one to three bytes of the length that follows the id. *)
Theorem C3_close_after_command_id (w : world) :
  sock_closed (sock w) = false ->
  (inbound (sock w) = [] -> fst (recv_message w) = Return None)
  /\ (forall v m,
         string_message v PyNone = Some m ->
         inbound (sock w) = pack_be 4 (wire_contract v) ->
         fst (recv_message w) = Return (Some m))
  /\ (inbound (sock w) = pack_be 4 ANP_COMMAND_COPY_FILE ->
      fst (recv_message w) = Raise TypeError)
  /\ (forall v partial,
         string_message v PyNone <> None \/ v = COPY_FILE ->
         recv_sizes (sock w) = [] ->
         inbound (sock w) = pack_be 4 (wire_contract v) ++ partial ->
         0 < len partial < 4 ->
         fst (recv_message w) =
         Raise (ANPException (EndOfStream (4 - len partial)))).
Proof.
  intros Hopen. repeat split.
  - intros Hin. destruct (read_uint_closed w Hopen Hin) as [sizes H].
    unfold recv_message. rewrite (bind_Return _ _ _ _ _ H). reflexivity.
  - intros v m Hm Hin.
    destruct (read_uint_last w Hopen) as [sizes H].
    { rewrite Hin. apply length_pack_be. }
    rewrite Hin, unpack_pack_uint in H by (destruct v; cbv; split; congruence).
    destruct (read_string_closed (recv_world w [] sizes) Hopen eq_refl)
      as [sizes' Hs].
    destruct v; try discriminate; injection Hm as <-;
      rewrite (recv_message_step _ _ _ _ H eq_refl);
      cbn [recv_parameters];
      rewrite (bind_Return _ _ _ _ _ (bind_Return _ _ _ _ _ Hs));
      reflexivity.
  - intros Hin.
    destruct (read_uint_last w Hopen) as [sizes H].
    { rewrite Hin. apply length_pack_be. }
    rewrite Hin, unpack_pack_uint in H by (cbv; split; congruence).
    destruct (read_string_closed (recv_world w [] sizes) Hopen eq_refl)
      as [sizes' Hs].
    rewrite (recv_message_step _ _ _ _ H eq_refl).
    cbn [recv_parameters].
    unfold bind at 1. unfold bind at 1. rewrite Hs.
    reflexivity.
  - intros v partial Hv Hfull Hin Hlen.
    pose proof (read_uint_exact w (pack_be 4 (wire_contract v)) partial
                  Hopen Hfull Hin (length_pack_be _ _)) as H.
    rewrite unpack_pack_uint in H by (destruct v; cbv; split; congruence).
    destruct (read_string_truncated (recv_world w partial []) Hopen Hlen)
      as [sizes' Hs].
    cbn [recv_world set_sock sock inbound] in Hs.
    destruct Hv as [Hv| ->].
    + destruct v; try (exfalso; apply Hv; reflexivity);
        rewrite (recv_message_step _ _ _ _ H eq_refl);
        cbn [recv_parameters];
        rewrite (bind_Raise _ _ _ _ _ (bind_Raise _ _ _ _ _ Hs));
        reflexivity.
    + rewrite (recv_message_step _ _ _ _ H eq_refl).
      cbn [recv_parameters].
      rewrite (bind_Raise _ _ _ _ _ (bind_Raise _ _ _ _ _ Hs)).
      reflexivity.
Qed.

Lemma C3_witness :
  fst (recv_message (sample_world (pack_be 4 (wire_contract PING)) [1; 2]%nat))
  = Return (Some (ANPCommandPING PyNone))
  /\ fst (recv_message (sample_world (pack_be 4 (wire_contract ERROR_)
                                       ++ [x00; x00]) []))
     = Raise (ANPException (EndOfStream 2)).
Proof.
  split.
  - apply (proj1 (proj2 (C3_close_after_command_id
             (sample_world (pack_be 4 (wire_contract PING)) [1; 2]%nat)
             eq_refl)) PING (ANPCommandPING PyNone));
      reflexivity.
  - apply (proj2 (proj2 (proj2 (C3_close_after_command_id
             (sample_world (pack_be 4 (wire_contract ERROR_) ++ [x00; x00]) [])
             eq_refl))) ERROR_ [x00; x00]).
    + left. discriminate.
    + reflexivity.
    + reflexivity.
    + cbv. split; reflexivity.
Defined.

(** ** Blocks *)

Lemma wrote_closed (w w' : world) (data : bytes) :
  wrote w w' data -> sock_closed (sock w') = sock_closed (sock w).
Proof. intros H. apply (wrote_frame w w' data H). Qed.

Lemma write_data_ok (value c : bytes) (w : world) :
  sock_closed (sock w) = false ->
  sealed w value = Return c ->
  len c < 2 ^ 32 ->
  exists w', write_data value w = (Return tt, w')
             /\ wrote w w' (pack_be 4 (len c) ++ c).
Proof.
  intros Hopen Hseal Hlen. unfold write_data.
  unfold bind at 1. unfold sealed in Hseal.
  assert (Hfirst :
            (match truthy (ENCRYPTION_PASSWORD w) with
             | Some password => (encrypt_chunk (crypto w) password value, w)
             | None => (Return value, w)
             end) = (Return c, w)).
  { destruct (truthy (ENCRYPTION_PASSWORD w)); rewrite Hseal; reflexivity. }
  rewrite Hfirst.
  destruct (write_uint_ok (len c) w Hopen) as (w1 & Hw1 & Hwrote1).
  { pose proof (len_nonneg c). lia. }
  rewrite (bind_Return _ _ _ _ _ Hw1).
  destruct (Z.ltb_spec 0 (len c)) as [Hpos|Hzero].
  - destruct (write_n_bytes_ok c w1) as (w' & Hw' & Hwrote').
    { rewrite (wrote_closed _ _ _ Hwrote1). exact Hopen. }
    exists w'. split; [exact Hw'|].
    eapply wrote_trans; eassumption.
  - exists w1. split; [reflexivity|].
    assert (c = []) by (apply len_nil_iff; pose proof (len_nonneg c); lia).
    subst c. rewrite app_nil_r. exact Hwrote1.
Qed.

Lemma read_data_block (w : world) (c rest : bytes) :
  sock_closed (sock w) = false ->
  recv_sizes (sock w) = [] ->
  inbound (sock w) = pack_be 4 (len c) ++ c ++ rest ->
  0 < len c < 2 ^ 32 ->
  exact_read (len c) rest ->
  read_data w = (opened w c, recv_world w rest []).
Proof.
  intros Hopen Hfull Hin Hlen Hex. unfold read_data.
  pose proof (read_uint_exact w (pack_be 4 (len c)) (c ++ rest)
                Hopen Hfull Hin (length_pack_be _ _)) as Hu.
  rewrite unpack_pack_uint in Hu by lia.
  rewrite (bind_Return _ _ _ _ _ Hu).
  destruct (Z.eqb_spec (len c) 0); [lia|].
  rewrite (bind_Return _ _ _ _ _
             (read_n_bytes_exact (len c) (recv_world w (c ++ rest) []) c rest
                ltac:(lia) Hopen eq_refl eq_refl eq_refl Hex)).
  rewrite recv_world_again. unfold opened.
  cbn [recv_world set_sock ENCRYPTION_PASSWORD crypto].
  destruct (ENCRYPTION_PASSWORD w); [|reflexivity].
  destruct (decrypt_chunk (crypto w) b (Some c)); reflexivity.
Qed.

Lemma read_data_empty (w : world) (rest : bytes) :
  sock_closed (sock w) = false ->
  recv_sizes (sock w) = [] ->
  inbound (sock w) = pack_be 4 0 ++ rest ->
  read_data w = (Return (Some []), recv_world w rest []).
Proof.
  intros Hopen Hfull Hin. unfold read_data.
  pose proof (read_uint_exact w (pack_be 4 0) rest
                Hopen Hfull Hin (length_pack_be _ _)) as Hu.
  rewrite (bind_Return _ _ _ _ _ Hu). reflexivity.
Qed.

Lemma truthy_Some (password : option bytes) (pw : bytes) :
  truthy password = Some pw -> password = Some pw /\ pw <> [].
Proof.
  destruct password as [[|b p]|]; cbn; intros H; try discriminate.
  injection H as <-. split; [reflexivity | discriminate].
Qed.

(** C5, amended.  With a password that is set and not empty, [write_data]
    encrypts the value, then writes the length of the cipher text as a plain
    4-byte integer and the cipher text after it; [read_data] reads the plain
    length and decrypts the payload of every block whose length is not zero.
    A block of length zero is returned as the empty value without a call of
    the cipher.  Without a password ([None]) neither side transforms the
    payload. *)
Theorem C5_blocks_and_the_password (w : world) (value : bytes) :
  sock_closed (sock w) = false ->
  (forall pw c,
      truthy (ENCRYPTION_PASSWORD w) = Some pw ->
      encrypt_chunk (crypto w) pw value = Return c ->
      len c < 2 ^ 32 ->
      exists w', write_data value w = (Return tt, w')
                 /\ wrote w w' (pack_be 4 (len c) ++ c))
  /\ (ENCRYPTION_PASSWORD w = None ->
      len value < 2 ^ 32 ->
      exists w', write_data value w = (Return tt, w')
                 /\ wrote w w' (pack_be 4 (len value) ++ value))
  /\ (forall rest,
         recv_sizes (sock w) = [] ->
         inbound (sock w) = pack_be 4 (len value) ++ value ++ rest ->
         0 < len value < 2 ^ 32 ->
         exact_read (len value) rest ->
         (forall pw,
             truthy (ENCRYPTION_PASSWORD w) = Some pw ->
             read_data w =
             (match decrypt_chunk (crypto w) pw (Some value) with
              | Return plain => Return (Some plain)
              | Raise e => Raise e
              | Timeout => Timeout
              end, recv_world w rest []))
         /\ (ENCRYPTION_PASSWORD w = None ->
             read_data w = (Return (Some value), recv_world w rest [])))
  /\ (forall rest,
         recv_sizes (sock w) = [] ->
         inbound (sock w) = pack_be 4 0 ++ rest ->
         read_data w = (Return (Some []), recv_world w rest [])).
Proof.
  intros Hopen. repeat split.
  - intros pw c Hpw Henc Hlen. apply write_data_ok; try assumption.
    unfold sealed. rewrite Hpw. exact Henc.
  - intros Hnone Hlen. apply write_data_ok; try assumption.
    unfold sealed. rewrite Hnone. reflexivity.
  - intros pw Hpw. rewrite (read_data_block w value rest) by assumption.
    unfold opened. apply truthy_Some in Hpw. destruct Hpw as [-> _].
    reflexivity.
  - intros Hnone. rewrite (read_data_block w value rest) by assumption.
    unfold opened. rewrite Hnone. reflexivity.
  - intros rest Hfull Hin. apply read_data_empty; assumption.
Qed.

Lemma C5_witness :
  (exists w',
      write_data [x41] (with_password (Some [x6b]) (sample_world [] []))
      = (Return tt, w')
      /\ wrote (with_password (Some [x6b]) (sample_world [] [])) w'
               (pack_be 4 2 ++ [xa5; x41]))
  /\ read_data (with_password (Some [x6b])
                  (sample_world (pack_be 4 2 ++ [xa5; x41] ++ [x07]) []))
     = (Return (Some [x41]),
        recv_world (with_password (Some [x6b])
                      (sample_world (pack_be 4 2 ++ [xa5; x41] ++ [x07]) []))
                   [x07] []).
Proof.
  split.
  - apply (proj1 (C5_blocks_and_the_password
                    (with_password (Some [x6b]) (sample_world [] []))
                    [x41] eq_refl) [x6b] [xa5; x41]).
    + reflexivity.
    + reflexivity.
    + reflexivity.
  - apply (proj1 (proj1 (proj2 (proj2 (C5_blocks_and_the_password
                    (with_password (Some [x6b])
                       (sample_world (pack_be 4 2 ++ [xa5; x41] ++ [x07]) []))
                    [xa5; x41] eq_refl))) [x07] eq_refl eq_refl
                    ltac:(cbv; split; reflexivity)
                    ltac:(left; cbv; discriminate)) [x6b] eq_refl).
Defined.

(** ** The utf16 codec *)

Lemma bytes_unit_unit_bytes (big_endian : bool) (u : Z) :
  0 <= u < 65536 ->
  match unit_bytes big_endian u with
  | [b0; b1] => bytes_unit big_endian b0 b1 = u
  | _ => False
  end.
Proof.
  intros Hu. unfold unit_bytes, bytes_unit.
  destruct big_endian; rewrite !Z_of_byte_of_Z;
    pose proof (Z.div_mod u 256 ltac:(lia));
    pose proof (Z.mod_pos_bound u 256 ltac:(lia));
    rewrite (Z.mod_small (u / 256)) by
      (split; [apply Z.div_pos; lia | apply Z.div_lt_upper_bound; lia]);
    lia.
Qed.

Lemma utf16_decode_bmp (u : Z) (rest : bytes) :
  0 <= u < 65536 ->
  ~ 0xD800 <= u <= 0xDFFF ->
  utf16_decode_units false (unit_bytes false u ++ rest) =
  match utf16_decode_units false rest with
  | Return s => Return (u :: s)
  | r => r
  end.
Proof.
  intros Hu Hs. pose proof (bytes_unit_unit_bytes false u Hu) as Hb.
  cbn [unit_bytes] in *. cbn [app utf16_decode_units]. rewrite Hb.
  unfold is_high_surrogate, is_low_surrogate.
  destruct (Z.leb_spec 0xD800 u); destruct (Z.leb_spec u 0xDBFF);
    destruct (Z.leb_spec 0xDC00 u); destruct (Z.leb_spec u 0xDFFF);
    cbn [andb]; try lia; reflexivity.
Qed.

Lemma utf16_decode_pair (hi lo : Z) (rest : bytes) :
  0xD800 <= hi <= 0xDBFF ->
  0xDC00 <= lo <= 0xDFFF ->
  utf16_decode_units false (unit_bytes false hi ++ unit_bytes false lo ++ rest) =
  match utf16_decode_units false rest with
  | Return s => Return (0x10000 + (hi - 0xD800) * 0x400 + (lo - 0xDC00) :: s)
  | r => r
  end.
Proof.
  intros Hhi Hlo.
  pose proof (bytes_unit_unit_bytes false hi ltac:(lia)) as Hb1.
  pose proof (bytes_unit_unit_bytes false lo ltac:(lia)) as Hb2.
  cbn [unit_bytes] in *. cbn [app utf16_decode_units]. rewrite Hb1, Hb2.
  unfold is_high_surrogate, is_low_surrogate.
  destruct (Z.leb_spec 0xD800 hi); destruct (Z.leb_spec hi 0xDBFF);
    destruct (Z.leb_spec 0xDC00 lo); destruct (Z.leb_spec lo 0xDFFF);
    cbn [andb]; try lia; reflexivity.
Qed.

Lemma utf16_units_roundtrip (s : pystr) (data : bytes) :
  utf16_encode_units s = Return data ->
  utf16_decode_units false data = Return s.
Proof.
  revert data. induction s as [|c s IH]; intros data H.
  - injection H as <-. reflexivity.
  - cbn [utf16_encode_units] in H.
    destruct (Z.ltb_spec c 0) as [|H0]; [discriminate|].
    destruct (Z.ltb_spec 0x10FFFF c) as [|H1]; [discriminate|].
    cbn [orb] in H.
    destruct ((0xD800 <=? c) && (c <=? 0xDFFF)) eqn:Hsur; [discriminate|].
    assert (Hns : ~ 0xD800 <= c <= 0xDFFF).
    { intros [Ha Hb]. apply andb_false_iff in Hsur.
      destruct Hsur as [Hsur|Hsur];
        [apply Z.leb_gt in Hsur | apply Z.leb_gt in Hsur]; lia. }
    destruct (utf16_encode_units s) as [rest| |]; try discriminate.
    specialize (IH rest eq_refl).
    destruct (Z.ltb_spec c 0x10000) as [Hbmp|Hsup].
    + injection H as <-.
      change (utf16_decode_units false (unit_bytes false c ++ rest)
              = Return (c :: s)).
      rewrite utf16_decode_bmp, IH by lia. reflexivity.
    + injection H as <-.
      pose proof (Z.div_mod (c - 0x10000) 0x400 ltac:(lia)).
      pose proof (Z.mod_pos_bound (c - 0x10000) 0x400 ltac:(lia)).
      assert (0 <= (c - 0x10000) / 0x400 < 0x400).
      { split; [apply Z.div_pos; lia | apply Z.div_lt_upper_bound; lia]. }
      change (utf16_decode_units false
                (unit_bytes false (0xD800 + (c - 0x10000) / 0x400)
                 ++ unit_bytes false (0xDC00 + (c - 0x10000) mod 0x400)
                 ++ rest) = Return (c :: s)).
      rewrite utf16_decode_pair, IH by lia. f_equal. f_equal. lia.
Qed.

Lemma utf16_roundtrip (s : pystr) (data : bytes) :
  utf16_encode s = Return data -> utf16_decode data = Return s.
Proof.
  unfold utf16_encode. destruct (utf16_encode_units s) as [units| |] eqn:E;
    intros H; try discriminate.
  injection H as <-. cbn [BOM_LE app utf16_decode].
  apply utf16_units_roundtrip. exact E.
Qed.

Lemma utf16_encode_units_total (s : pystr) :
  Forall scalar_value s -> exists data, utf16_encode_units s = Return data.
Proof.
  induction 1 as [|c s [Hc Hs] _ [rest IH]].
  - exists []. reflexivity.
  - cbn [utf16_encode_units]. rewrite IH.
    destruct (Z.ltb_spec c 0); [lia|].
    destruct (Z.ltb_spec 0x10FFFF c); [lia|]. cbn [orb].
    destruct (Z.leb_spec 0xD800 c); destruct (Z.leb_spec c 0xDFFF);
      cbn [andb]; try lia;
      destruct (c <? 0x10000); eexists; reflexivity.
Qed.

Lemma utf16_encode_total (s : pystr) :
  Forall scalar_value s ->
  utf16_encode s = Return (utf16 s) /\ utf16 s <> [].
Proof.
  intros H. destruct (utf16_encode_units_total s H) as [units Hu].
  unfold utf16, utf16_encode. rewrite Hu. split; [reflexivity | discriminate].
Qed.

(** ** Strings and messages across a connection *)

Lemma transports_plain (ws wr : world) (value : bytes) :
  ENCRYPTION_PASSWORD ws = None ->
  ENCRYPTION_PASSWORD wr = None ->
  0 < len value < 2 ^ 32 ->
  transports ws wr value.
Proof.
  intros Hs Hr Hlen. exists value. unfold sealed, opened.
  rewrite Hs, Hr. cbn [truthy]. auto.
Qed.

Lemma read_string_block (w : world) (c rest x : bytes) (s : pystr) :
  sock_closed (sock w) = false ->
  recv_sizes (sock w) = [] ->
  inbound (sock w) = pack_be 4 (len c) ++ c ++ rest ->
  0 < len c < 2 ^ 32 ->
  exact_read (len c) rest ->
  opened w c = Return (Some x) ->
  utf16_decode x = Return s ->
  read_string w = (Return (Some s), recv_world w rest []).
Proof.
  intros Hopen Hfull Hin Hlen Hex Hop Hdec. unfold read_string.
  pose proof (read_data_block w c rest Hopen Hfull Hin Hlen Hex) as Hd.
  rewrite Hop in Hd. rewrite (bind_Return _ _ _ _ _ Hd).
  unfold bind, lift. rewrite Hdec. reflexivity.
Qed.

Lemma write_string_ok (w : world) (s : pystr) (c : bytes) :
  sock_closed (sock w) = false ->
  Forall scalar_value s ->
  sealed w (utf16 s) = Return c ->
  len c < 2 ^ 32 ->
  exists w', write_string (PyStr s) w = (Return tt, w')
             /\ wrote w w' (pack_be 4 (len c) ++ c).
Proof.
  intros Hopen Hs Hseal Hlen. unfold write_string, bind at 1, lift.
  cbn [encode_value]. destruct (utf16_encode_total s Hs) as [-> _].
  apply write_data_ok; assumption.
Qed.

Lemma send_plain_ok (w : world) (v : variant) (m : ANPMessage) :
  sock_closed (sock w) = false ->
  plain_message v = Some m ->
  exists w', send_message m w = (Return tt, w')
             /\ wrote w w' (pack_be 4 (wire_contract v)).
Proof.
  intros Hopen Hm.
  destruct (write_uint_ok (wire_contract v) w Hopen) as (w' & Hw & Hwrote).
  { destruct v; cbv; split; congruence. }
  exists w'. split; [|exact Hwrote].
  destruct v; try discriminate; injection Hm as <-;
    unfold send_message; cbn [command send_parameters];
    rewrite (bind_Return _ _ _ _ _ Hw); reflexivity.
Qed.


Lemma send_string_ok (w : world) (v : variant) (m : ANPMessage)
      (s : pystr) (c : bytes) :
  sock_closed (sock w) = false ->
  string_message v (PyStr s) = Some m ->
  Forall scalar_value s ->
  sealed w (utf16 s) = Return c ->
  len c < 2 ^ 32 ->
  exists w', send_message m w = (Return tt, w')
             /\ wrote w w' (pack_be 4 (wire_contract v)
                            ++ pack_be 4 (len c) ++ c).
Proof.
  intros Hopen Hm Hs Hseal Hlen.
  destruct (write_uint_ok (wire_contract v) w Hopen) as (w1 & Hw1 & Hwrote1).
  { destruct v; cbv; split; congruence. }
  assert (Hopen1 : sock_closed (sock w1) = false).
  { rewrite (wrote_closed _ _ _ Hwrote1). exact Hopen. }
  assert (Hseal1 : sealed w1 (utf16 s) = Return c).
  { destruct (wrote_frame _ _ _ Hwrote1) as (_ & Hp & Hc & _).
    unfold sealed in *. rewrite Hp, Hc. exact Hseal. }
  destruct (write_string_ok w1 s c Hopen1 Hs Hseal1 Hlen)
    as (w' & Hw' & Hwrote').
  exists w'. split; [|eapply wrote_trans; eassumption].
  destruct v; try discriminate; injection Hm as <-;
    unfold send_message; cbn [command send_parameters];
    rewrite (bind_Return _ _ _ _ _ Hw1); exact Hw'.
Qed.


(** ** Chunked data without encryption *)

Lemma chunks_of_concat (fuel : nat) (data : bytes) :
  (length data <= fuel)%nat -> concat (chunks_of fuel data) = data.
Proof.
  revert data. induction fuel as [|fuel IH]; intros data Hfuel.
  - destruct data; [reflexivity | cbn in Hfuel; lia].
  - cbn [chunks_of]. destruct data as [|b data]; [reflexivity|].
    cbn [concat]. rewrite IH.
    + apply firstn_skipn.
    + rewrite length_skipn. cbn [length] in *.
      unfold DEFAULT_CHUNK_SIZE. lia.
Qed.



Lemma sealed_plain (w : world) (value : bytes) :
  ENCRYPTION_PASSWORD w = None -> sealed w value = Return value.
Proof. intros H. unfold sealed. rewrite H. reflexivity. Qed.

Lemma opened_plain (w : world) (payload : bytes) :
  ENCRYPTION_PASSWORD w = None -> opened w payload = Return (Some payload).
Proof. intros H. unfold opened. rewrite H. reflexivity. Qed.

Lemma wrote_password (w w' : world) (data : bytes) :
  wrote w w' data -> ENCRYPTION_PASSWORD w' = ENCRYPTION_PASSWORD w.
Proof. intros H. apply (wrote_frame w w' data H). Qed.

(** The writer emits the chunks as blocks and then one empty block. *)
Lemma write_chunked_data_loop_ok :
  forall (fuel : nat) (fp : bytes) (w : world),
    sock_closed (sock w) = false ->
    ENCRYPTION_PASSWORD w = None ->
    (length fp < fuel)%nat ->
    exists w',
      write_chunked_data_loop fuel fp w = (Return tt, w')
      /\ wrote w w' (flat_map block (chunks_of fuel fp) ++ block []).
Proof.
  induction fuel as [|fuel IH]; intros fp w Hopen Hpw Hfuel; [lia|].
  cbn [write_chunked_data_loop chunks_of].
  set (chunk := firstn (Z.to_nat DEFAULT_CHUNK_SIZE) fp).
  destruct (write_data_ok chunk chunk w Hopen (sealed_plain w chunk Hpw))
    as (w1 & Hw1 & Hwrote1).
  { subst chunk. unfold len. rewrite length_firstn.
    unfold DEFAULT_CHUNK_SIZE. lia. }
  rewrite (bind_Return _ _ _ _ _ Hw1).
  destruct fp as [|b fp].
  - subst chunk. rewrite firstn_nil in *. exists w1.
    split; [reflexivity | exact Hwrote1].
  - assert (Hne : chunk <> []).
    { subst chunk. unfold DEFAULT_CHUNK_SIZE.
      destruct (Z.to_nat (256 * 1024)) eqn:E; [lia | discriminate]. }
    destruct chunk as [|c0 chunk'] eqn:Echunk; [contradiction|].
    rewrite <- Echunk in *.
    destruct (IH (skipn (Z.to_nat DEFAULT_CHUNK_SIZE) (b :: fp)) w1)
      as (w' & Hw' & Hwrote').
    + rewrite (wrote_closed _ _ _ Hwrote1). exact Hopen.
    + rewrite (wrote_password _ _ _ Hwrote1). exact Hpw.
    + rewrite length_skipn. cbn [length] in *.
      unfold DEFAULT_CHUNK_SIZE. lia.
    + exists w'. split; [exact Hw'|].
      cbn [flat_map]. rewrite <- app_assoc.
      eapply wrote_trans; eassumption.
Qed.

Lemma fs_get_put_same (files : list (pystr * bytes)) (p : pystr) (c : bytes) :
  fs_get (fs_put files p c) p = Some c.
Proof.
  unfold fs_put. cbn [fs_get]. unfold pystr_eqb.
  destruct (pystr_eq_dec p p); [reflexivity | contradiction].
Qed.

(** The reader appends the blocks to the sink, in order, up to the first
    empty block, when each block has a length that is read exactly. *)
Lemma read_chunked_data_loop_ok (sink : pystr) (rest : bytes) :
  forall (cs : list bytes) (fuel : nat) (w : world) (old : bytes),
    Forall (fun c => 0 < len c < 2 ^ 32 /\ exact_size (len c)) cs ->
    sock_closed (sock w) = false ->
    recv_sizes (sock w) = [] ->
    ENCRYPTION_PASSWORD w = None ->
    inbound (sock w) = flat_map block cs ++ block [] ++ rest ->
    fs_get (fs_files (fs w)) sink = Some old ->
    (length cs < fuel)%nat ->
    exists w',
      read_chunked_data_loop fuel sink w = (Return tt, w')
      /\ sock w' = sock (recv_world w rest [])
      /\ fs_get (fs_files (fs w')) sink = Some (old ++ concat cs).
Proof.
  induction cs as [|c cs IH]; intros fuel w old Hcs Hopen Hfull Hpw Hin Hold Hfuel;
    (destruct fuel as [|fuel]; [cbn in Hfuel; lia|]);
    cbn [read_chunked_data_loop].
  - cbn [flat_map app] in Hin.
    rewrite (bind_Return _ _ _ _ _ (read_data_empty w rest Hopen Hfull Hin)).
    cbn [is_last_chunk]. exists (recv_world w rest []).
    repeat split. cbn [concat]. rewrite app_nil_r. exact Hold.
  - inversion Hcs as [|? ? [Hlen Hex] Hcs']; subst.
    cbn [flat_map] in Hin. unfold block at 1 in Hin.
    rewrite <- !app_assoc in Hin.
    pose proof (read_data_block w c _ Hopen Hfull Hin Hlen
                  (match Hex with
                   | or_introl H => or_introl H
                   | or_intror H => or_intror (or_introl H)
                   end)) as Hd.
    rewrite (opened_plain w c Hpw) in Hd.
    rewrite (bind_Return _ _ _ _ _ Hd).
    assert (Hne : is_last_chunk (Some c) = false).
    { destruct c; [cbn in Hlen; lia | reflexivity]. }
    rewrite Hne.
    set (w1 := recv_world w (flat_map block cs ++ block [] ++ rest) []) in *.
    unfold bind at 1. unfold fp_write at 1.
    change (fs_get (fs_files (fs w1)) sink) with (fs_get (fs_files (fs w)) sink).
    rewrite Hold.
    set (w2 := set_fs _ w1).
    destruct (IH fuel w2 (old ++ c) Hcs') as (w' & Hrun & Hsock & Hfile);
      try assumption; try reflexivity.
    + subst w2. cbn [set_fs fs fs_files]. apply fs_get_put_same.
    + cbn [length] in Hfuel. lia.
    + exists w'. split; [exact Hrun|]. split; [exact Hsock|].
      rewrite Hfile. cbn [concat]. rewrite app_assoc. reflexivity.
Qed.

Lemma length_flat_map_block (cs : list bytes) :
  (length cs <= length (flat_map block cs))%nat.
Proof.
  induction cs as [|c cs IH]; [cbn; lia|].
  cbn [flat_map]. unfold block at 1.
  rewrite !length_app, length_pack_be. cbn [length]. lia.
Qed.

(** ** COPY_FILE across a connection *)

Lemma bind_bind {A B C : Type} (c : M A) (f : A -> M B) (g : B -> M C)
      (w : world) :
  bind (bind c f) g w = bind c (fun a => bind (f a) g) w.
Proof. unfold bind. destruct (c w) as [[a|e|] w']; reflexivity. Qed.






(** ** What read_n_bytes does in general *)

Lemma deliver_le (sizes : list nat) (asked : nat) :
  (deliver sizes asked <= asked)%nat.
Proof. unfold deliver. destruct sizes; lia. Qed.

(** Whatever the short reads, a result of [read_n_bytes_loop] is made of the
    bytes it took from the stream, in order; there are at least [count] of
    them, and fewer than [count] plus one buffer. *)
Lemma read_n_bytes_loop_prefix (count : Z) (Hc : 0 < count) :
  forall (fuel : nat) (acc : bytes) (w w' : world) (d : bytes),
    len acc < count + recv_chunk count ->
    read_n_bytes_loop fuel count (len acc) acc w = (Return (Some d), w') ->
    exists got,
      d = acc ++ got
      /\ inbound (sock w) = got ++ inbound (sock w')
      /\ count <= len d < count + recv_chunk count.
Proof.
  pose proof (recv_chunk_bounds count Hc) as [Hb _].
  induction fuel as [|fuel IH]; intros acc w w' d Hacc Hrun.
  - cbn [read_n_bytes_loop] in Hrun.
    destruct (Z.ltb_spec (len acc) count); [discriminate|].
    injection Hrun as <- <-. exists []. rewrite app_nil_r. auto.
  - destruct (Z.ltb_spec (len acc) count) as [Hlt|Hge].
    + destruct (sock_closed (sock w)) eqn:Hopen.
      { cbn [read_n_bytes_loop] in Hrun.
        destruct (Z.ltb_spec (len acc) count); [|lia].
        unfold bind, recv in Hrun. rewrite Hopen in Hrun. discriminate. }
      rewrite read_n_bytes_loop_step in Hrun by assumption.
      set (n := deliver (recv_sizes (sock w)) (Z.to_nat (recv_chunk count))) in *.
      assert (Hn : (n <= Z.to_nat (recv_chunk count))%nat) by apply deliver_le.
      destruct (inbound (sock w)) as [|b inb] eqn:Ein.
      { unfold end_of_stream_result in Hrun.
        destruct (Z.eqb_spec (len acc) count); [lia|].
        destruct (len acc =? 0); discriminate. }
      apply IH in Hrun.
      * destruct Hrun as (got & -> & Hin & Hlen).
        exists (firstn n (b :: inb) ++ got).
        rewrite <- app_assoc in *. split; [reflexivity|].
        split; [|exact Hlen].
        cbn [recv_world set_sock sock inbound] in Hin.
        rewrite <- app_assoc, <- Hin. symmetry. apply firstn_skipn.
      * rewrite len_app. unfold len at 2. rewrite length_firstn. lia.
    + rewrite read_n_bytes_loop_done in Hrun by assumption.
      injection Hrun as <- <-. exists []. rewrite app_nil_r. auto.
Qed.

Lemma read_n_bytes_prefix (count : Z) (w w' : world) (d : bytes) :
  read_n_bytes count w = (Return (Some d), w') ->
  inbound (sock w) = d ++ inbound (sock w')
  /\ count <= len d < count + recv_chunk count.
Proof.
  intros Hrun.
  assert (Hc : 0 < count).
  { unfold read_n_bytes in Hrun.
    destruct (Z.eqb_spec count 0); [discriminate|].
    destruct (Z.ltb_spec count 0); [discriminate|]. lia. }
  rewrite read_n_bytes_unfold in Hrun by assumption.
  pose proof (recv_chunk_bounds count Hc) as [Hb _].
  apply (read_n_bytes_loop_prefix count Hc) in Hrun.
  - destruct Hrun as (got & -> & Hin & Hlen). auto.
  - cbn. lia.
Qed.










(** * Further properties of the module *)

(** ** The primitives of ANPSocket *)

(** X1.  Whatever the short reads of the socket, when [read_n_bytes count]
    returns bytes, these are the bytes it took from the stream, in order; it
    has taken at least [count] of them and fewer than [count] plus the size
    of the buffer it hands to [recv]. *)
Theorem X1_read_n_bytes_returns_what_it_took
        (count : Z) (w w' : world) (d : bytes) :
  read_n_bytes count w = (Return (Some d), w') ->
  0 < count
  /\ inbound (sock w) = d ++ inbound (sock w')
  /\ count <= len d < count + recv_chunk count.
Proof.
  intros Hrun. split; [|apply read_n_bytes_prefix; exact Hrun].
  unfold read_n_bytes in Hrun.
  destruct (Z.eqb_spec count 0); [discriminate|].
  destruct (Z.ltb_spec count 0); [discriminate|]. lia.
Qed.

Lemma X1_witness :
  0 < 4
  /\ [x01; x02; x03; x04; x05; x06] = [x01; x02; x03; x04; x05] ++ [x06]
  /\ 4 <= len [x01; x02; x03; x04; x05] < 4 + recv_chunk 4.
Proof.
  apply (X1_read_n_bytes_returns_what_it_took
           4 (sample_world [x01; x02; x03; x04; x05; x06] [2; 3]%nat)
           (sample_world [x06] [])).
  vm_compute. reflexivity.
Defined.

(** X2.  When the peer has closed and no more than [count] bytes are
    pending, [read_n_bytes count] receives them all, whatever the short
    reads: it returns them if they are [count], returns [None] if there is
    none, and otherwise raises the [ANPException] that names the number of
    bytes still expected. *)
Theorem X2_read_n_bytes_at_the_end_of_the_stream (count : Z) (w : world) :
  0 < count ->
  sock_closed (sock w) = false ->
  len (inbound (sock w)) <= count ->
  exists sizes,
    read_n_bytes count w =
    ((if len (inbound (sock w)) =? count then Return (Some (inbound (sock w)))
      else if len (inbound (sock w)) =? 0 then Return None
      else Raise (ANPException (EndOfStream (count - len (inbound (sock w)))))),
     recv_world w [] sizes).
Proof. intros Hc Hopen Hle. exact (read_n_bytes_all count w Hc Hopen Hle). Qed.

Lemma X2_witness :
  exists sizes,
    read_n_bytes 4 (sample_world [x01; x02] [1; 1; 1]%nat) =
    (Raise (ANPException (EndOfStream 2)),
     recv_world (sample_world [x01; x02] [1; 1; 1]%nat) [] sizes).
Proof.
  apply (X2_read_n_bytes_at_the_end_of_the_stream
           4 (sample_world [x01; x02] [1; 1; 1]%nat)).
  - lia.
  - reflexivity.
  - vm_compute. discriminate.
Defined.

(** X3.  Without short reads, [read_n_bytes count] returns exactly the next
    [count] bytes and leaves what follows them in the stream, when [count]
    is at most the buffer size 8192, or a multiple of it, or nothing follows
    the bytes asked for. *)
Theorem X3_read_n_bytes_exact
        (count : Z) (w : world) (data rest : bytes) :
  0 < count ->
  sock_closed (sock w) = false ->
  recv_sizes (sock w) = [] ->
  inbound (sock w) = data ++ rest ->
  len data = count ->
  count <= DEFAULT_BUFFER_SIZE \/ count mod DEFAULT_BUFFER_SIZE = 0 \/ rest = [] ->
  read_n_bytes count w = (Return (Some data), recv_world w rest []).
Proof. apply read_n_bytes_exact. Qed.

Lemma X3_witness :
  read_n_bytes 2 (sample_world ([x01; x02] ++ [x03]) []) =
  (Return (Some [x01; x02]),
   recv_world (sample_world ([x01; x02] ++ [x03]) []) [x03] []).
Proof.
  apply (X3_read_n_bytes_exact 2 (sample_world ([x01; x02] ++ [x03]) [])
                               [x01; x02] [x03]).
  - lia.
  - reflexivity.
  - reflexivity.
  - reflexivity.
  - reflexivity.
  - left. vm_compute. discriminate.
Defined.

(** X4.  Without short reads and with at least [count] bytes pending,
    [read_n_bytes count] returns the pending bytes up to [count] rounded up
    to a whole number of buffers of [min(8192, count)] bytes: every [recv]
    is asked for a full buffer, also the last one. *)
Theorem X4_read_n_bytes_takes_whole_buffers (count : Z) (w : world) :
  0 < count ->
  sock_closed (sock w) = false ->
  recv_sizes (sock w) = [] ->
  count <= len (inbound (sock w)) ->
  read_n_bytes count w =
  (Return (Some (firstn (Z.to_nat (round_up count)) (inbound (sock w)))),
   recv_world w (skipn (Z.to_nat (round_up count)) (inbound (sock w))) [])
  /\ count <= round_up count < count + recv_chunk count
  /\ (recv_chunk count | round_up count).
Proof.
  intros Hc Hopen Hfull Hle. split.
  - apply read_n_bytes_full; assumption.
  - destruct (round_up_spec count Hc) as (q & Hq & Hr). split; [exact Hr|].
    exists q. rewrite Hq. apply Z.mul_comm.
Qed.

Lemma X4_witness :
  read_n_bytes 3 (sample_world [x01; x02; x03; x04] []) =
  (Return (Some (firstn (Z.to_nat (round_up 3)) [x01; x02; x03; x04])),
   recv_world (sample_world [x01; x02; x03; x04] [])
              (skipn (Z.to_nat (round_up 3)) [x01; x02; x03; x04]) [])
  /\ 3 <= round_up 3 < 3 + recv_chunk 3
  /\ (recv_chunk 3 | round_up 3).
Proof.
  apply (X4_read_n_bytes_takes_whole_buffers
           3 (sample_world [x01; x02; x03; x04] [])).
  - lia.
  - reflexivity.
  - reflexivity.
  - vm_compute. discriminate.
Defined.

(** X5.  On an open socket [write_n_bytes data] returns after all of [data]
    has been written, in order and once, whatever the short writes of
    [send]. *)
Theorem X5_write_n_bytes_writes_everything (data : bytes) (w : world) :
  sock_closed (sock w) = false ->
  exists w' sizes,
    write_n_bytes data w = (Return tt, w')
    /\ w' = send_world w (outbound (sock w) ++ data) sizes.
Proof.
  intros Hopen.
  destruct (write_n_bytes_ok data w Hopen) as (w' & Hrun & sizes & Hw).
  exists w', sizes. split; assumption.
Qed.

Lemma X5_witness :
  exists w' sizes,
    write_n_bytes [x01; x02; x03]
      (mkWorld (mkSocket [] [] [x00] [1; 5]%nat false false)
               (mkFs [] []) [] [] [1] None sample_home sample_crypto)
    = (Return tt, w')
    /\ w' = send_world
              (mkWorld (mkSocket [] [] [x00] [1; 5]%nat false false)
                       (mkFs [] []) [] [] [1] None sample_home sample_crypto)
              ([x00] ++ [x01; x02; x03]) sizes.
Proof.
  apply (X5_write_n_bytes_writes_everything [x01; x02; x03]).
  reflexivity.
Defined.

(** ** Integers *)





(** X7.  A value outside the range of its format is refused by [write_uint]
    and [write_ulong] with [struct.error] before anything is written. *)
Theorem X7_integer_out_of_range_writes_nothing (value : Z) (w : world) :
  (value < 0 \/ 2 ^ 32 <= value -> write_uint value w = (Raise StructError, w))
  /\ (value < 0 \/ 2 ^ 64 <= value -> write_ulong value w = (Raise StructError, w)).
Proof.
  split; intros H; unfold write_uint, write_ulong, bind, lift, struct_pack.
  - change (256 ^ Z.of_nat UINT_SIZE) with (2 ^ 32).
    destruct (Z.leb_spec 0 value); destruct (Z.ltb_spec value (2 ^ 32));
      cbn [andb]; try lia; reflexivity.
  - change (256 ^ Z.of_nat ULONG_SIZE) with (2 ^ 64).
    destruct (Z.leb_spec 0 value); destruct (Z.ltb_spec value (2 ^ 64));
      cbn [andb]; try lia; reflexivity.
Qed.

Lemma X7_witness :
  write_uint (2 ^ 32) (sample_world [] []) = (Raise StructError, sample_world [] []).
Proof.
  apply (proj1 (X7_integer_out_of_range_writes_nothing (2 ^ 32) (sample_world [] []))).
  right. lia.
Defined.

Lemma read_ulong_at_end (w : world) :
  sock_closed (sock w) = false ->
  len (inbound (sock w)) < 8 ->
  exists sizes,
    read_ulong w =
    ((if len (inbound (sock w)) =? 0 then Return None
      else Raise (ANPException (EndOfStream (8 - len (inbound (sock w)))))),
     recv_world w [] sizes).
Proof.
  intros Hopen Hin.
  destruct (read_n_bytes_all 8 w) as [sizes H]; try assumption; try lia.
  exists sizes. unfold read_ulong. change (Z.of_nat ULONG_SIZE) with 8.
  unfold end_of_stream_result in H.
  destruct (Z.eqb_spec (len (inbound (sock w))) 8); [lia|].
  destruct (Z.eqb_spec (len (inbound (sock w))) 0).
  - rewrite (bind_Return _ _ _ _ _ H). reflexivity.
  - rewrite (bind_Raise _ _ _ _ _ H). reflexivity.
Qed.

(** X8.  At the end of the stream, whatever the short reads: [read_uint] and
    [read_ulong] return [None] when the peer closed before the first byte of
    the integer, and raise the [ANPException] with the number of missing
    bytes when it closed inside the integer. *)
Theorem X8_integer_at_the_end_of_the_stream (w : world) :
  sock_closed (sock w) = false ->
  (len (inbound (sock w)) < 4 ->
   exists sizes,
     read_uint w =
     ((if len (inbound (sock w)) =? 0 then Return None
       else Raise (ANPException (EndOfStream (4 - len (inbound (sock w)))))),
      recv_world w [] sizes))
  /\ (len (inbound (sock w)) < 8 ->
      exists sizes,
        read_ulong w =
        ((if len (inbound (sock w)) =? 0 then Return None
          else Raise (ANPException (EndOfStream (8 - len (inbound (sock w)))))),
         recv_world w [] sizes)).
Proof.
  intros Hopen. split; intros Hlen.
  - destruct (Z.eqb_spec (len (inbound (sock w))) 0) as [E|E].
    + apply read_uint_closed; [assumption|]. apply len_nil_iff. exact E.
    + apply read_uint_truncated; [assumption|].
      pose proof (len_nonneg (inbound (sock w))). lia.
  - apply read_ulong_at_end; assumption.
Qed.

Lemma X8_witness :
  exists sizes,
    read_ulong (sample_world [x01; x02; x03] [2]%nat) =
    (Raise (ANPException (EndOfStream 5)),
     recv_world (sample_world [x01; x02; x03] [2]%nat) [] sizes).
Proof.
  apply (proj2 (X8_integer_at_the_end_of_the_stream
                  (sample_world [x01; x02; x03] [2]%nat) eq_refl)).
  vm_compute. reflexivity.
Defined.

(** ** Blocks and strings *)

(** X9.  A block written by [write_data] is read back by [read_data]: if the
    block for [value] is not empty and is one that the receiver turns back
    into [value] (no password on either side, or a shared password and a
    cipher that decrypts what it encrypted), and the receiver reads its
    payload exactly, then [read_data] returns [value] and leaves what follows
    the block; and the empty value, written without a password, is a block of
    length zero that [read_data] returns as the empty value. *)
Theorem X9_block_round_trip (ws wr : world) (value rest : bytes) :
  sock_closed (sock ws) = false ->
  sock_closed (sock wr) = false ->
  recv_sizes (sock wr) = [] ->
  (transports ws wr value ->
   exists ws' c,
     write_data value ws = (Return tt, ws')
     /\ wrote ws ws' (pack_be 4 (len c) ++ c)
     /\ (inbound (sock wr) = pack_be 4 (len c) ++ c ++ rest ->
         exact_read (len c) rest ->
         read_data wr = (Return (Some value), recv_world wr rest [])))
  /\ (ENCRYPTION_PASSWORD ws = None ->
      value = [] ->
      exists ws',
        write_data value ws = (Return tt, ws')
        /\ wrote ws ws' (pack_be 4 0)
        /\ (inbound (sock wr) = pack_be 4 0 ++ rest ->
            read_data wr = (Return (Some value), recv_world wr rest []))).
Proof.
  intros Hs Hr Hfull. split.
  - intros (c & Hseal & Hlen & Hop).
    destruct (write_data_ok value c ws Hs Hseal) as (ws' & Hw & Hwrote); [lia|].
    exists ws', c. repeat split; try assumption.
    intros Hin Hex.
    rewrite (read_data_block wr c rest Hr Hfull Hin Hlen Hex). rewrite Hop.
    reflexivity.
  - intros Hpw ->.
    destruct (write_data_ok [] [] ws Hs (sealed_plain ws [] Hpw))
      as (ws' & Hw & Hwrote); [cbv; reflexivity|].
    exists ws'. repeat split; try assumption.
    intros Hin. apply read_data_empty; assumption.
Qed.

Lemma X9_witness :
  exists ws' c,
    write_data [x41] (with_password (Some [x6b]) (sample_world [] []))
    = (Return tt, ws')
    /\ wrote (with_password (Some [x6b]) (sample_world [] [])) ws'
             (pack_be 4 (len c) ++ c)
    /\ (inbound (sock (with_password (Some [x6b])
                         (sample_world ([x00; x00; x00; x02; xa5; x41] ++ [x09]) [])))
        = pack_be 4 (len c) ++ c ++ [x09] ->
        exact_read (len c) [x09] ->
        read_data (with_password (Some [x6b])
                     (sample_world ([x00; x00; x00; x02; xa5; x41] ++ [x09]) []))
        = (Return (Some [x41]),
           recv_world (with_password (Some [x6b])
                         (sample_world ([x00; x00; x00; x02; xa5; x41] ++ [x09]) []))
                      [x09] [])).
Proof.
  apply (proj1 (X9_block_round_trip
                  (with_password (Some [x6b]) (sample_world [] []))
                  (with_password (Some [x6b])
                     (sample_world ([x00; x00; x00; x02; xa5; x41] ++ [x09]) []))
                  [x41] [x09] eq_refl eq_refl eq_refl)).
  exists [xa5; x41]. repeat split; reflexivity.
Defined.

(** X10.  If the peer closes right after the length prefix of a block that
    is not empty, [read_data] does not raise the [ANPException] of a
    truncated stream: without a password it returns [None], as for a stream
    closed before the block, and with a password it hands [None] to
    [decrypt_chunk]. *)
Theorem X10_block_cut_after_its_length (w : world) (n : Z) :
  sock_closed (sock w) = false ->
  0 < n < 2 ^ 32 ->
  inbound (sock w) = pack_be 4 n ->
  exists sizes,
    read_data w =
    (match ENCRYPTION_PASSWORD w with
     | None => Return None
     | Some password =>
         match decrypt_chunk (crypto w) password None with
         | Return plain => Return (Some plain)
         | Raise e => Raise e
         | Timeout => Timeout
         end
     end, recv_world w [] sizes).
Proof.
  intros Hopen Hn Hin.
  destruct (read_uint_last w Hopen) as [sizes Hu].
  { rewrite Hin. apply length_pack_be. }
  rewrite Hin, unpack_pack_uint in Hu by lia.
  destruct (read_n_bytes_all n (recv_world w [] sizes)) as [sizes' Hr];
    try assumption; try lia.
  { cbn. lia. }
  change (end_of_stream_result n (inbound (sock (recv_world w [] sizes))))
    with (end_of_stream_result n []) in Hr.
  unfold end_of_stream_result in Hr. change (len (@nil byte)) with 0 in Hr.
  destruct (Z.eqb_spec 0 n); [lia|]. cbn [Z.eqb] in Hr.
  exists sizes'. unfold read_data. rewrite (bind_Return _ _ _ _ _ Hu).
  destruct (Z.eqb_spec n 0); [lia|].
  rewrite (bind_Return _ _ _ _ _ Hr). rewrite recv_world_again.
  cbn [recv_world set_sock ENCRYPTION_PASSWORD crypto].
  destruct (ENCRYPTION_PASSWORD w); [|reflexivity].
  destruct (decrypt_chunk (crypto w) b None); reflexivity.
Qed.

Lemma X10_witness :
  exists sizes,
    read_data (sample_world (pack_be 4 7) [3]%nat) =
    (Return None, recv_world (sample_world (pack_be 4 7) [3]%nat) [] sizes).
Proof.
  apply (X10_block_cut_after_its_length (sample_world (pack_be 4 7) [3]%nat) 7).
  - reflexivity.
  - lia.
  - reflexivity.
Defined.

(** X11.  A string without surrogate code points, the empty string included,
    goes through [write_string] and [read_string] unchanged: it is written as
    one block that holds its utf16 encoding behind the byte order mark, and a
    receiver that reads that block exactly gets the string back and leaves
    what follows the block. *)
Theorem X11_string_round_trip (ws wr : world) (s : pystr) (rest : bytes) :
  sock_closed (sock ws) = false ->
  sock_closed (sock wr) = false ->
  recv_sizes (sock wr) = [] ->
  Forall scalar_value s ->
  transports ws wr (utf16 s) ->
  firstn 2 (utf16 s) = BOM_LE
  /\ exists ws' c,
       write_string (PyStr s) ws = (Return tt, ws')
       /\ wrote ws ws' (pack_be 4 (len c) ++ c)
       /\ (inbound (sock wr) = pack_be 4 (len c) ++ c ++ rest ->
           exact_read (len c) rest ->
           read_string wr = (Return (Some s), recv_world wr rest [])).
Proof.
  intros Hs Hr Hfull Hsc (c & Hseal & Hlen & Hop).
  destruct (utf16_encode_total s Hsc) as [Henc _]. split.
  - unfold utf16, utf16_encode in *.
    destruct (utf16_encode_units s); try discriminate. reflexivity.
  - destruct (write_string_ok ws s c Hs Hsc Hseal) as (ws' & Hw & Hwrote); [lia|].
    exists ws', c. repeat split; try assumption.
    intros Hin Hex.
    apply (read_string_block wr c rest (utf16 s) s); try assumption.
    apply utf16_roundtrip. exact Henc.
Qed.

Lemma X11_witness :
  firstn 2 (utf16 []) = BOM_LE
  /\ exists ws' c,
       write_string (PyStr []) (sample_world [] []) = (Return tt, ws')
       /\ wrote (sample_world [] []) ws' (pack_be 4 (len c) ++ c)
       /\ (inbound (sock (sample_world [x00; x00; x00; x02; xff; xfe] []))
           = pack_be 4 (len c) ++ c ++ [] ->
           exact_read (len c) [] ->
           read_string (sample_world [x00; x00; x00; x02; xff; xfe] [])
           = (Return (Some []),
              recv_world (sample_world [x00; x00; x00; x02; xff; xfe] []) [] [])).
Proof.
  apply (X11_string_round_trip (sample_world [] [])
           (sample_world [x00; x00; x00; x02; xff; xfe] []) [] []
           eq_refl eq_refl eq_refl).
  - apply Forall_nil.
  - apply transports_plain; try reflexivity. cbv. split; reflexivity.
Defined.




(** ** Chunked streams *)

Lemma chunks_of_sizes (fuel : nat) (data : bytes) :
  Forall (fun c => 0 < len c <= DEFAULT_CHUNK_SIZE) (chunks_of fuel data).
Proof.
  revert data. induction fuel as [|fuel IH]; intros data; [constructor|].
  cbn [chunks_of]. destruct data as [|b data]; [constructor|].
  constructor; [|apply IH].
  unfold len. rewrite length_firstn. cbn [length].
  unfold DEFAULT_CHUNK_SIZE. lia.
Qed.

(** X13.  Without a password, [write_chunked_data] writes any file as a
    sequence of blocks, none of them empty and none longer than 256 KiB,
    whose payloads make up the file in order, followed by exactly one block
    of length zero; for the empty file the terminator is all it writes. *)
Theorem X13_write_chunked_data_blocks_then_one_terminator
        (data : bytes) (w : world) :
  sock_closed (sock w) = false ->
  ENCRYPTION_PASSWORD w = None ->
  exists w' cs,
    write_chunked_data data w = (Return tt, w')
    /\ wrote w w' (flat_map block cs ++ [x00; x00; x00; x00])
    /\ concat cs = data
    /\ Forall (fun c => 0 < len c <= DEFAULT_CHUNK_SIZE) cs
    /\ (data = [] -> cs = []).
Proof.
  intros Hopen Hpw.
  destruct (write_chunked_data_loop_ok (S (length data)) data w Hopen Hpw)
    as (w' & Hrun & Hwrote); [lia|].
  exists w', (chunks_of (S (length data)) data).
  repeat split.
  - exact Hrun.
  - exact Hwrote.
  - apply chunks_of_concat. lia.
  - apply chunks_of_sizes.
  - intros ->. reflexivity.
Qed.

Lemma X13_witness :
  exists w' cs,
    write_chunked_data [x41; x42] (sample_world [] []) = (Return tt, w')
    /\ wrote (sample_world [] []) w' (flat_map block cs ++ [x00; x00; x00; x00])
    /\ concat cs = [x41; x42]
    /\ Forall (fun c => 0 < len c <= DEFAULT_CHUNK_SIZE) cs
    /\ ([x41; x42] = [] -> cs = []).
Proof.
  apply (X13_write_chunked_data_blocks_then_one_terminator
           [x41; x42] (sample_world [] [])); reflexivity.
Defined.

(** X14.  Without a password and without short reads, [read_chunked_data]
    on a stream of blocks that are not empty (each of a length that is read
    exactly), then a block of length zero, then anything: appends the
    payloads to the file in order, stops at the block of length zero, and
    leaves what follows it unread. *)
Theorem X14_read_chunked_data_up_to_the_terminator
        (sink : pystr) (cs : list bytes) (rest old : bytes) (w : world) :
  Forall (fun c => 0 < len c < 2 ^ 32 /\ exact_size (len c)) cs ->
  sock_closed (sock w) = false ->
  recv_sizes (sock w) = [] ->
  ENCRYPTION_PASSWORD w = None ->
  inbound (sock w) = flat_map block cs ++ [x00; x00; x00; x00] ++ rest ->
  fs_get (fs_files (fs w)) sink = Some old ->
  exists w',
    read_chunked_data sink w = (Return tt, w')
    /\ sock w' = sock (recv_world w rest [])
    /\ fs_get (fs_files (fs w')) sink = Some (old ++ concat cs).
Proof.
  intros Hcs Hopen Hfull Hpw Hin Hold.
  apply (read_chunked_data_loop_ok sink rest cs
           (S (length (inbound (sock w)))) w old); try assumption.
  rewrite Hin, length_app. pose proof (length_flat_map_block cs). lia.
Qed.

Lemma X14_witness :
  exists w',
    read_chunked_data sample_sink
      (set_fs (mkFs [(sample_sink, [x40])] [])
         (sample_world (flat_map block [[x41]; [x42; x43]]
                        ++ [x00; x00; x00; x00] ++ [x09]) []))
    = (Return tt, w')
    /\ sock w' = sock (recv_world
                         (set_fs (mkFs [(sample_sink, [x40])] [])
                            (sample_world (flat_map block [[x41]; [x42; x43]]
                                           ++ [x00; x00; x00; x00] ++ [x09]) []))
                         [x09] [])
    /\ fs_get (fs_files (fs w')) sample_sink
       = Some ([x40] ++ concat [[x41]; [x42; x43]]).
Proof.
  apply (X14_read_chunked_data_up_to_the_terminator
           sample_sink [[x41]; [x42; x43]] [x09] [x40]).
  - repeat (apply Forall_cons;
            [split; [cbv; split; reflexivity | left; cbv; discriminate]|]).
    apply Forall_nil.
  - reflexivity.
  - reflexivity.
  - reflexivity.
  - reflexivity.
  - reflexivity.
Defined.








(** ** Messages *)

Lemma recv_message_inv (w w' : world) (m : ANPMessage) :
  recv_message w = (Return (Some m), w') ->
  exists c w1 cls,
    read_uint w = (Return (Some c), w1)
    /\ dict_get ANP_CLASS_LOOKUP c = Some cls
    /\ recv_parameters (cls PyANPSocket) w1 = (Return m, w').
Proof.
  unfold recv_message. intros H. bind_inv H.
  destruct a as [c|]; [|discriminate].
  destruct (dict_get ANP_CLASS_LOOKUP c) as [cls|] eqn:Hcls; [|discriminate].
  bind_inv H. injection H as <- <-.
  exists c, w0, cls. repeat split; assumption.
Qed.

Lemma utf16_decode_units_unfold (big_endian : bool) (b0 b1 : byte) (rest : bytes) :
  utf16_decode_units big_endian (b0 :: b1 :: rest) =
  let u := bytes_unit big_endian b0 b1 in
  if is_high_surrogate u then
    match rest with
    | c0 :: c1 :: rest' =>
        let u2 := bytes_unit big_endian c0 c1 in
        if is_low_surrogate u2 then
          match utf16_decode_units big_endian rest' with
          | Return s =>
              Return (0x10000 + (u - 0xD800) * 0x400 + (u2 - 0xDC00) :: s)
          | r => r
          end
        else Raise UnicodeDecodeError
    | _ => Raise UnicodeDecodeError
    end
  else if is_low_surrogate u then Raise UnicodeDecodeError
  else
    match utf16_decode_units big_endian rest with
    | Return s => Return (u :: s)
    | r => r
    end.
Proof. reflexivity. Qed.

Lemma utf16_decode_units_scalar (big_endian : bool) :
  forall (n : nat) (data : bytes) (s : pystr),
    (length data <= n)%nat ->
    utf16_decode_units big_endian data = Return s ->
    Forall scalar_value s.
Proof.
  induction n as [|n IH]; intros data s Hn H.
  - destruct data; [|cbn in Hn; lia]. injection H as <-. constructor.
  - destruct data as [|b0 [|b1 rest]].
    + injection H as <-. constructor.
    + discriminate.
    + rewrite utf16_decode_units_unfold in H. cbv zeta in H.
      set (u := bytes_unit big_endian b0 b1) in *.
      assert (Hu : 0 <= u < 65536).
      { subst u. unfold bytes_unit.
        pose proof (Z_of_byte_range b0). pose proof (Z_of_byte_range b1).
        destruct big_endian; lia. }
      unfold is_high_surrogate, is_low_surrogate in H.
      destruct (Z.leb_spec 0xD800 u); destruct (Z.leb_spec u 0xDBFF);
        cbn [andb] in H.
      * destruct rest as [|c0 [|c1 rest']]; try discriminate.
        set (u2 := bytes_unit big_endian c0 c1) in *.
        destruct (Z.leb_spec 0xDC00 u2); destruct (Z.leb_spec u2 0xDFFF);
          cbn [andb] in H; try discriminate.
        destruct (utf16_decode_units big_endian rest') as [s'| |] eqn:E;
          try discriminate.
        remember (0x10000 + (u - 0xD800) * 0x400 + (u2 - 0xDC00)) as v eqn:Hv.
        injection H as <-. constructor.
        -- unfold scalar_value. lia.
        -- apply (IH rest' s'); [cbn [length] in Hn; lia | exact E].
      * destruct (Z.leb_spec 0xDC00 u); destruct (Z.leb_spec u 0xDFFF);
          cbn [andb] in H; try discriminate; try lia.
        destruct (utf16_decode_units big_endian rest) as [s'| |] eqn:E;
          try discriminate.
        injection H as <-. constructor.
        -- unfold scalar_value. lia.
        -- apply (IH rest s'); [cbn [length] in Hn; lia | exact E].
      * destruct (Z.leb_spec 0xDC00 u); destruct (Z.leb_spec u 0xDFFF);
          cbn [andb] in H; try discriminate; try lia.
        destruct (utf16_decode_units big_endian rest) as [s'| |] eqn:E;
          try discriminate.
        injection H as <-. constructor.
        -- unfold scalar_value. lia.
        -- apply (IH rest s'); [cbn [length] in Hn; lia | exact E].
      * lia.
Qed.

Lemma utf16_decode_scalar (data : bytes) (s : pystr) :
  utf16_decode data = Return s -> Forall scalar_value s.
Proof.
  intros H.
  assert (Hgen : exists be d, utf16_decode_units be d = Return s).
  { unfold utf16_decode in H.
    destruct data as [|b0 [|b1 rest]]; try (eexists _, _; exact H).
    all: destruct b0; cbv beta iota in H; try (eexists _, _; exact H);
      destruct b1; cbv beta iota in H; eexists _, _; exact H. }
  destruct Hgen as (be & d & Hd).
  apply (utf16_decode_units_scalar be (length d) d s); [lia | exact Hd].
Qed.

Lemma read_string_scalar (w w' : world) (s : pystr) :
  read_string w = (Return (Some s), w') -> Forall scalar_value s.
Proof.
  unfold read_string. intros H. bind_inv H.
  destruct a as [b|]; [|discriminate].
  unfold bind, lift in H.
  destruct (utf16_decode b) as [s'| |] eqn:E; try discriminate.
  injection H as <- _. apply (utf16_decode_scalar b). exact E.
Qed.

Lemma pyval_of_shape (w w' : world) (r : option pystr) :
  read_string w = (Return r, w') ->
  pyval_of r = PyNone \/ exists s, pyval_of r = PyStr s /\ Forall scalar_value s.
Proof.
  intros H. destruct r as [s|]; [|left; reflexivity].
  right. exists s. split; [reflexivity|]. apply (read_string_scalar w w'). exact H.
Qed.

Lemma recv_message_shape (w w' : world) (m : ANPMessage) :
  recv_message w = (Return (Some m), w') -> received_shape m.
Proof.
  intros H. apply recv_message_inv in H.
  destruct H as (c & w1 & cls & _ & Hcls & Hp).
  revert Hcls.
  cbv [dict_get ANP_CLASS_LOOKUP ANP_COMMAND_EXIT ANP_COMMAND_REGISTER
    ANP_COMMAND_OK ANP_COMMAND_ERROR ANP_COMMAND_PING ANP_COMMAND_PONG
    ANP_COMMAND_AVAILABLE ANP_COMMAND_COPY_FILE ANP_COMMAND_PROCESS
    ANP_COMMAND_BUSY].
  repeat match goal with
         | |- context [?k =? c] =>
             destruct (Z.eqb_spec k c);
             [intros Hc; injection Hc as <-; cbn [recv_parameters] in Hp|]
         end; try discriminate;
    try (injection Hp as <- _; exact I);
    try (bind_inv Hp; injection Hp as <- _;
         exact (pyval_of_shape _ _ _ H)).
  bind_inv Hp. bind_inv Hp.
  assert (Hstr : exists s, pyval_of a = PyStr s /\ Forall scalar_value s).
  { destruct (pyval_of_shape _ _ _ H) as [Hn|Hs]; [|exact Hs].
    rewrite Hn in H0. discriminate. }
  repeat bind_inv Hp. injection Hp as <- _. split; [exact Hstr | reflexivity].
Qed.

(** X18.  No message that [recv_message] returns holds the socket object it
    was built with: the attribute of ERROR, PING, PONG and PROCESS is [None]
    or a string without surrogates, and a COPY_FILE has a string for its
    path and [None] for its [source_path]. *)
Theorem X18_received_messages_hold_strings_or_none
        (w w' : world) (m : ANPMessage) :
  recv_message w = (Return (Some m), w') ->
  match m with
  | ANPCommandERROR v | ANPCommandPING v | ANPCommandPONG v
  | ANPCommandPROCESS v =>
      v = PyNone \/ exists s, v = PyStr s /\ Forall scalar_value s
  | ANPCommandCOPY_FILE p source_path =>
      (exists s, p = PyStr s /\ Forall scalar_value s) /\ source_path = PyNone
  | _ => True
  end.
Proof. apply recv_message_shape. Qed.

Lemma X18_witness :
  (exists s, PyStr [97] = PyStr s /\ Forall scalar_value s) /\ PyNone = PyNone.
Proof.
  apply (X18_received_messages_hold_strings_or_none
           (sample_receiver sample_copy_wire)
           (snd (recv_message (sample_receiver sample_copy_wire)))
           (ANPCommandCOPY_FILE (PyStr [97]) PyNone)).
  vm_compute. reflexivity.
Defined.

(** X19.  A COPY_FILE message that was received cannot be sent on: it has no
    [source_path], so [send_message] never succeeds on it; on an open socket
    without a password it writes the command id and the path and then fails
    with [TypeError] at [open(None)]. *)
Theorem X19_received_copy_file_cannot_be_sent
        (w w' ws : world) (m : ANPMessage) :
  recv_message w = (Return (Some m), w') ->
  variant_of m = COPY_FILE ->
  exists p,
    m = ANPCommandCOPY_FILE (PyStr p) PyNone
    /\ fst (send_message m ws) <> Return tt
    /\ (sock_closed (sock ws) = false ->
        ENCRYPTION_PASSWORD ws = None ->
        len (utf16 p) < 2 ^ 32 ->
        exists ws',
          send_message m ws = (Raise TypeError, ws')
          /\ wrote ws ws' (pack_be 4 ANP_COMMAND_COPY_FILE ++ block (utf16 p))).
Proof.
  intros Hrecv Hv. apply recv_message_shape in Hrecv.
  destruct m; try discriminate.
  destruct Hrecv as [(p & -> & Hp) ->]. exists p. split; [reflexivity|].
  split.
  - unfold send_message. cbn [command send_parameters]. unfold bind.
    destruct (write_uint ANP_COMMAND_COPY_FILE ws) as [[[]|e|] w1];
      cbn [fst]; try discriminate.
    destruct (write_string (PyStr p) w1) as [[[]|e|] w2];
      cbn [fst open_rb]; discriminate.
  - intros Hopen Hpw Hlen.
    destruct (write_uint_ok ANP_COMMAND_COPY_FILE ws Hopen)
      as (w1 & Hw1 & Hwrote1); [cbv; split; congruence|].
    pose proof (wrote_frame _ _ _ Hwrote1) as (Hc1 & Hp1 & _).
    destruct (write_string_ok w1 p (utf16 p)) as (w2 & Hw2 & Hwrote2);
      try assumption.
    { rewrite Hc1. exact Hopen. }
    { apply sealed_plain. rewrite Hp1. exact Hpw. }
    exists w2. split.
    + unfold send_message. cbn [command send_parameters].
      rewrite (bind_Return _ _ _ _ _ Hw1).
      rewrite (bind_Return _ _ _ _ _ Hw2). reflexivity.
    + eapply wrote_trans; eassumption.
Qed.

Lemma X19_witness :
  exists p,
    ANPCommandCOPY_FILE (PyStr [97]) PyNone = ANPCommandCOPY_FILE (PyStr p) PyNone
    /\ fst (send_message (ANPCommandCOPY_FILE (PyStr [97]) PyNone)
                         (sample_world [] []))
       <> Return tt
    /\ (sock_closed (sock (sample_world [] [])) = false ->
        ENCRYPTION_PASSWORD (sample_world [] []) = None ->
        len (utf16 p) < 2 ^ 32 ->
        exists ws',
          send_message (ANPCommandCOPY_FILE (PyStr [97]) PyNone)
                       (sample_world [] [])
          = (Raise TypeError, ws')
          /\ wrote (sample_world [] []) ws'
                   (pack_be 4 ANP_COMMAND_COPY_FILE ++ block (utf16 p))).
Proof.
  apply (X19_received_copy_file_cannot_be_sent
           (sample_receiver sample_copy_wire)
           (snd (recv_message (sample_receiver sample_copy_wire)))
           (sample_world [] [])
           (ANPCommandCOPY_FILE (PyStr [97]) PyNone)).
  - vm_compute. reflexivity.
  - reflexivity.
Defined.

(** X20.  [send_message] on a message whose string attribute is not a string
    (the [None] that a cut-off frame leaves in a received message) writes
    the command id and then fails with [AttributeError], leaving half a
    frame on the connection. *)
Theorem X20_message_without_string_leaves_half_a_frame
        (w : world) (v : variant) (value : pyval) (m : ANPMessage) :
  sock_closed (sock w) = false ->
  string_message v value = Some m ->
  (forall s, value <> PyStr s) ->
  exists w',
    send_message m w = (Raise AttributeError, w')
    /\ wrote w w' (pack_be 4 (wire_contract v)).
Proof.
  intros Hopen Hm Hn.
  destruct (write_uint_ok (wire_contract v) w Hopen) as (w1 & Hw1 & Hwrote1).
  { destruct v; cbv; split; congruence. }
  exists w1. split; [|exact Hwrote1].
  assert (Hws : write_string value w1 = (Raise AttributeError, w1)).
  { destruct value as [|s|]; try reflexivity. exfalso. apply (Hn s). reflexivity. }
  destruct v; try discriminate; injection Hm as <-;
    unfold send_message; cbn [command send_parameters];
    rewrite (bind_Return _ _ _ _ _ Hw1); exact Hws.
Qed.

Lemma X20_witness :
  exists w',
    send_message (ANPCommandPING PyNone) (sample_world [] [])
    = (Raise AttributeError, w')
    /\ wrote (sample_world [] []) w' (pack_be 4 (wire_contract PING)).
Proof.
  apply (X20_message_without_string_leaves_half_a_frame
           (sample_world [] []) PING PyNone (ANPCommandPING PyNone)).
  - reflexivity.
  - reflexivity.
  - discriminate.
Defined.

Lemma frame_plain (v : variant) (m : ANPMessage) :
  plain_message v = Some m -> frame m = pack_be 4 (wire_contract v).
Proof.
  intros Hm.
  destruct (send_plain_ok (sample_world [] []) v m eq_refl Hm)
    as (w' & Hsend & sizes & ->).
  unfold frame. rewrite Hsend. reflexivity.
Qed.

Lemma frame_string (v : variant) (s : pystr) (m : ANPMessage) :
  string_message v (PyStr s) = Some m ->
  Forall scalar_value s ->
  len (utf16 s) < 2 ^ 32 ->
  frame m = pack_be 4 (wire_contract v) ++ block (utf16 s).
Proof.
  intros Hm Hs Hlen.
  destruct (send_string_ok (sample_world [] []) v m s (utf16 s) eq_refl Hm Hs
              eq_refl Hlen) as (w' & Hsend & sizes & ->).
  unfold frame. rewrite Hsend. reflexivity.
Qed.

Lemma recv_plain_rest (w : world) (v : variant) (m : ANPMessage) (rest : bytes) :
  sock_closed (sock w) = false ->
  recv_sizes (sock w) = [] ->
  plain_message v = Some m ->
  inbound (sock w) = pack_be 4 (wire_contract v) ++ rest ->
  recv_message w = (Return (Some m), recv_world w rest []).
Proof.
  intros Hopen Hfull Hm Hin.
  pose proof (read_uint_exact w (pack_be 4 (wire_contract v)) rest
                Hopen Hfull Hin (length_pack_be _ _)) as Hu.
  rewrite unpack_pack_uint in Hu by (destruct v; cbv; split; congruence).
  destruct v; try discriminate; injection Hm as <-;
    rewrite (recv_message_step _ _ _ _ Hu eq_refl); reflexivity.
Qed.

Lemma recv_string_rest (w : world) (v : variant) (m : ANPMessage)
      (s : pystr) (c rest : bytes) :
  sock_closed (sock w) = false ->
  recv_sizes (sock w) = [] ->
  string_message v (PyStr s) = Some m ->
  Forall scalar_value s ->
  0 < len c < 2 ^ 32 ->
  exact_read (len c) rest ->
  opened w c = Return (Some (utf16 s)) ->
  inbound (sock w) = pack_be 4 (wire_contract v) ++ pack_be 4 (len c) ++ c ++ rest ->
  recv_message w = (Return (Some m), recv_world w rest []).
Proof.
  intros Hopen Hfull Hm Hs Hlen Hex Hop Hin.
  pose proof (read_uint_exact w (pack_be 4 (wire_contract v))
                (pack_be 4 (len c) ++ c ++ rest) Hopen Hfull Hin
                (length_pack_be _ _)) as Hu.
  rewrite unpack_pack_uint in Hu by (destruct v; cbv; split; congruence).
  destruct (utf16_encode_total s Hs) as [Henc _].
  pose proof (read_string_block
                (recv_world w (pack_be 4 (len c) ++ c ++ rest) []) c rest
                (utf16 s) s Hopen eq_refl eq_refl Hlen Hex Hop
                (utf16_roundtrip s _ Henc)) as Hr.
  rewrite recv_world_again in Hr.
  destruct v; try discriminate; injection Hm as <-;
    rewrite (recv_message_step _ _ _ _ Hu eq_refl);
    cbn [recv_parameters];
    rewrite (bind_Return _ _ _ _ _ (bind_Return _ _ _ _ _ Hr));
    reflexivity.
Qed.

(** X21.  Frames are decoded one after the other: on a connection without
    password and short reads that carries the frames of a list of messages
    (each without payload, or with one string whose block is read exactly),
    as many calls of [recv_message] return the messages in order, each call
    taking its own frame and nothing of the next, and what follows the last
    frame is left. *)
Theorem X21_frames_are_decoded_in_order (ms : list ANPMessage) :
  forall (w : world) (rest : bytes),
    Forall short_message ms ->
    sock_closed (sock w) = false ->
    recv_sizes (sock w) = [] ->
    ENCRYPTION_PASSWORD w = None ->
    inbound (sock w) = flat_map frame ms ++ rest ->
    recv_messages (length ms) w = (Return (map Some ms), recv_world w rest []).
Proof.
  induction ms as [|m ms IH]; intros w rest Hms Hopen Hfull Hpw Hin.
  - cbn in *. rewrite <- Hin, <- Hfull, recv_world_id. reflexivity.
  - inversion Hms as [|? ? Hm Hms']; subst.
    cbn [flat_map] in Hin. rewrite <- app_assoc in Hin.
    assert (Hfirst : recv_message w =
                     (Return (Some m), recv_world w (flat_map frame ms ++ rest) [])).
    { destruct Hm as [(v & Hv) | (v & s & Hv & Hs & Hlen & Hex)].
      - rewrite (frame_plain v m Hv) in Hin.
        apply (recv_plain_rest w v m); assumption.
      - rewrite (frame_string v s m Hv Hs Hlen) in Hin.
        unfold block in Hin. rewrite <- !app_assoc in Hin.
        destruct (utf16_encode_total s Hs) as [_ Hne].
        apply (recv_string_rest w v m s (utf16 s)); try assumption.
        + split; [|exact Hlen]. pose proof (len_nonneg (utf16 s)).
          destruct (Z.eq_dec (len (utf16 s)) 0) as [E|E]; [|lia].
          apply len_nil_iff in E. contradiction.
        + destruct Hex as [H|H]; [left | right; left]; exact H.
        + apply opened_plain. exact Hpw. }
    cbn [length recv_messages map].
    rewrite (bind_Return _ _ _ _ _ Hfirst).
    rewrite (bind_Return _ _ _ _ _
               (IH (recv_world w (flat_map frame ms ++ rest) []) rest
                   Hms' Hopen eq_refl Hpw eq_refl)).
    reflexivity.
Qed.

Lemma X21_witness :
  recv_messages 3
    (sample_world (flat_map frame [ANPCommandPING (PyStr [104; 105]);
                                   ANPCommandREGISTER; ANPCommandEXIT]
                   ++ [x07]) [])
  = (Return (map Some [ANPCommandPING (PyStr [104; 105]);
                       ANPCommandREGISTER; ANPCommandEXIT]),
     recv_world
       (sample_world (flat_map frame [ANPCommandPING (PyStr [104; 105]);
                                      ANPCommandREGISTER; ANPCommandEXIT]
                      ++ [x07]) [])
       [x07] []).
Proof.
  apply (X21_frames_are_decoded_in_order
           [ANPCommandPING (PyStr [104; 105]); ANPCommandREGISTER; ANPCommandEXIT]
           (sample_world (flat_map frame [ANPCommandPING (PyStr [104; 105]);
                                          ANPCommandREGISTER; ANPCommandEXIT]
                          ++ [x07]) [])
           [x07]); try reflexivity.
  apply Forall_cons.
  - right. exists PING, [104; 105]. split; [reflexivity|].
    split; [repeat (apply Forall_cons; [unfold scalar_value; lia|]);
            apply Forall_nil|].
    split; [cbv; reflexivity | left; cbv; discriminate].
  - apply Forall_cons; [left; exists REGISTER; reflexivity|].
    apply Forall_cons; [left; exists EXIT; reflexivity|]. apply Forall_nil.
Defined.




(** ** The worker of a connection *)

(** X23.  Whatever the handler is, [tcp_client_execute] does not call it for
    an EXIT message nor when the peer has closed: it returns [False], having
    logged the EXIT message and nothing for the closed connection. *)
Theorem X23_exit_is_not_handed_to_the_handler
        (self : ACENetworkProtocolServer) (a : pystr) (w w1 : world)
        (r : option ANPMessage) :
  recv_message w = (Return r, w1) ->
  (forall m, r = Some m -> command m = ANP_COMMAND_EXIT) ->
  exists w2,
    tcp_client_execute self a w = (Return (Some false), w2)
    /\ handler_calls w2 = handler_calls w1
    /\ sock w2 = sock w1
    /\ log w2 = log w1 ++ match r with
                          | Some m => [(INFO, ReceivedCommand m a)]
                          | None => []
                          end.
Proof.
  intros Hrecv Hexit. unfold tcp_client_execute.
  rewrite (bind_Return _ _ _ _ _ Hrecv).
  destruct r as [m|].
  - unfold bind at 1. cbn [logging]. rewrite (Hexit m eq_refl).
    rewrite Z.eqb_refl. eexists. split; [reflexivity|]. repeat split.
  - exists w1. repeat split. rewrite app_nil_r. reflexivity.
Qed.

Lemma X23_witness :
  exists w2,
    tcp_client_execute sample_server sample_address
                       (sample_world (frame ANPCommandEXIT) [])
    = (Return (Some false), w2)
    /\ handler_calls w2 = handler_calls (sample_world [] [])
    /\ sock w2 = sock (sample_world [] [])
    /\ log w2 = log (sample_world [] [])
                ++ [(INFO, ReceivedCommand ANPCommandEXIT sample_address)].
Proof.
  apply (X23_exit_is_not_handed_to_the_handler
           sample_server sample_address
           (sample_world (frame ANPCommandEXIT) []) (sample_world [] [])
           (Some ANPCommandEXIT)).
  - vm_compute. reflexivity.
  - intros m H. injection H as <-. reflexivity.
Defined.

(** X24.  An exception of [recv_message] (a truncated frame, an unknown
    command, a string that cannot be decoded) ends the serving loop: it is
    logged as a warning, the handler is not called, the exception does not
    leave the worker, and the cleanup of the worker leaves the socket as it
    is and takes the thread off the list of the server. *)
Theorem X24_decode_error_ends_the_worker
        (self : ACENetworkProtocolServer) (polls : nat) (a : pystr) (t : Z)
        (w w1 : world) (e : exn) (l : list Z) :
  recv_message w = (Raise e, w1) ->
  list_remove t (tcp_client_threads w1) = Some l ->
  tcp_client_loop self (S polls) a t w =
  (Return tt,
   set_tcp_client_threads l
     (set_log (log w1 ++ [(WARNING, ErrorHandlingClientRequest e)]) w1)).
Proof.
  intros Hrecv Hl. rewrite tcp_client_loop_shutdown_does_nothing.
  assert (Hserve : tcp_client_serve self (S polls) a false w =
                   (Return tt,
                    set_log (log w1 ++ [(WARNING, ErrorHandlingClientRequest e)]) w1)).
  { cbn [tcp_client_serve]. unfold bind at 1, try_except.
    unfold bind at 1, tcp_client_execute.
    rewrite (bind_Raise _ _ _ _ _ Hrecv). reflexivity. }
  rewrite (bind_Return _ _ _ _ _ Hserve).
  cbn [set_log tcp_client_threads]. rewrite Hl. reflexivity.
Qed.

Lemma X24_witness :
  tcp_client_loop sample_server 3 sample_address 1
                  (sample_world UNKNOWN_9999 []) =
  (Return tt,
   set_tcp_client_threads []
     (set_log (log (sample_world [] [])
               ++ [(WARNING,
                    ErrorHandlingClientRequest (ANPException (UnknownCommand 9999)))])
        (sample_world [] []))).
Proof.
  apply (X24_decode_error_ends_the_worker
           sample_server 2 sample_address 1
           (sample_world UNKNOWN_9999 []) (sample_world [] [])).
  - vm_compute. reflexivity.
  - reflexivity.
Defined.

(** X25.  [close_socket] never raises and leaves the socket closed; on an
    open socket it has shut down both directions first, and on a closed one
    the failure of the shutdown is swallowed.  The streams are not touched. *)
Theorem X25_close_socket_always_closes (w : world) :
  fst (close_socket w) = Return tt
  /\ sock_closed (sock (snd (close_socket w))) = true
  /\ (sock_closed (sock w) = false ->
      sock_shutdown (sock (snd (close_socket w))) = true)
  /\ inbound (sock (snd (close_socket w))) = inbound (sock w)
  /\ outbound (sock (snd (close_socket w))) = outbound (sock w).
Proof.
  unfold close_socket, bind, try_except, socket_shutdown, socket_close, ret.
  destruct (sock_closed (sock w)); repeat split; try reflexivity; discriminate.
Qed.

(** ** The tables *)

(** X26.  The two tables have the same keys, the ten command ids, each once:
    every message has a command with a name in [ANP_COMMAND_STRING], so
    [__str__], which the worker calls to log a received command, never fails
    with [KeyError]; and the name tells the class. *)
Theorem X26_every_command_has_a_name :
  map fst ANP_COMMAND_STRING = map fst ANP_CLASS_LOOKUP
  /\ NoDup (map fst ANP_CLASS_LOOKUP)
  /\ (forall m, exists name attribute,
         ANPMessage_str m = Return name
         /\ message_str m = Return (name, attribute))
  /\ (forall m1 m2,
         ANPMessage_str m1 = ANPMessage_str m2 -> variant_of m1 = variant_of m2).
Proof.
  split; [reflexivity|]. split.
  - cbv [map fst ANP_CLASS_LOOKUP ANP_COMMAND_EXIT ANP_COMMAND_REGISTER
      ANP_COMMAND_OK ANP_COMMAND_ERROR ANP_COMMAND_PING ANP_COMMAND_PONG
      ANP_COMMAND_AVAILABLE ANP_COMMAND_COPY_FILE ANP_COMMAND_PROCESS
      ANP_COMMAND_BUSY].
    repeat (constructor; [cbn; intros H; repeat destruct H as [H|H];
                          try discriminate; exact H|]).
    constructor.
  - split.
    + intros m. destruct m; eexists _, _; split; reflexivity.
    + intros m1 m2. destruct m1, m2; cbv; intros H; try reflexivity;
        discriminate.
Qed.

(** ** The accept loop *)

Lemma close_tcp_server_socket_spec (s : server_state) :
  fst (close_tcp_server_socket s) = Return tt
  /\ tcp_server_socket (snd (close_tcp_server_socket s)) = None
  /\ server_threads (snd (close_tcp_server_socket s)) = server_threads s
  /\ create_results (snd (close_tcp_server_socket s)) = create_results s
  /\ listen_results (snd (close_tcp_server_socket s)) = listen_results s
  /\ start_results (snd (close_tcp_server_socket s)) = start_results s
  /\ accept_results (snd (close_tcp_server_socket s)) = accept_results s
  /\ (sockets_accounted s -> sockets_accounted (snd (close_tcp_server_socket s))).
Proof.
  unfold close_tcp_server_socket, sockets_accounted.
  destruct (tcp_server_socket s) as [n|] eqn:E.
  - destruct (next_result (close_results s)); cbn; repeat split; try reflexivity;
      intros [Hc Hs]; rewrite Hc, Hs, seq_S; reflexivity.
  - cbn. rewrite E. repeat split; auto.
Qed.

Lemma tcp_server_execute_accounted (s : server_state) :
  sockets_accounted s -> sockets_accounted (snd (tcp_server_execute s)).
Proof.
  destruct s as [so th cr cl lg crs lrs ars srs cls].
  unfold tcp_server_execute, sockets_accounted. cbn.
  destruct so as [n|]; intros H.
  - destruct ars as [|[|a|e] rs]; cbn; try exact H.
    destruct (next_result srs); cbn; exact H.
  - destruct (next_result crs); cbn; [exact H|].
    destruct (next_result lrs); cbn; [split; [reflexivity | exact H]|].
    destruct ars as [|[|a|e] rs]; cbn; try (split; [reflexivity | exact H]).
    destruct (next_result srs); cbn; split; try reflexivity; exact H.
Qed.

Lemma server_logging_accounted (level : log_level) (t : server_log_text)
      (s : server_state) :
  sockets_accounted s -> sockets_accounted (server_logging level t s).
Proof. intros H. exact H. Qed.

Lemma tcp_server_execute_finishes (s : server_state) :
  fst (tcp_server_execute s) <> Timeout.
Proof.
  destruct s as [so th cr cl lg crs lrs ars srs cls].
  unfold tcp_server_execute. cbn.
  destruct so as [n|].
  - destruct ars as [|[|a|e] rs]; cbn; try discriminate.
    destruct (next_result srs); cbn; discriminate.
  - destruct (next_result crs); cbn; [discriminate|].
    destruct (next_result lrs); cbn; [discriminate|].
    destruct ars as [|[|a|e] rs]; cbn; try discriminate.
    destruct (next_result srs); cbn; discriminate.
Qed.

Lemma tcp_server_loop_returns (polls : nat) (s : server_state) :
  fst (tcp_server_loop polls s) = Return tt
  /\ tcp_server_socket (snd (tcp_server_loop polls s)) = None.
Proof.
  revert s. induction polls as [|polls IH]; intros s.
  - cbn [tcp_server_loop].
    destruct (close_tcp_server_socket_spec s) as (H1 & H2 & _). auto.
  - cbn [tcp_server_loop].
    pose proof (tcp_server_execute_finishes s) as Hfin.
    destruct (tcp_server_execute s) as [[[]|e|] s1]; cbn [fst] in Hfin.
    + destruct (server_threads s1); apply IH.
    + set (s2 := server_logging ERROR ServerReportException _).
      destruct (close_tcp_server_socket_spec s2) as (H1 & _).
      destruct (close_tcp_server_socket s2) as [[[]|e'|] s3];
        cbn [fst] in H1; try discriminate. apply IH.
    + contradiction.
Qed.

(** X27.  Whatever the operating system does (failures of [socket], [bind],
    [listen], [accept], of the start of a thread or of [close]), the accept
    loop does not raise: it runs until the shutdown event is set and returns,
    and then the server holds no listening socket. *)
Theorem X27_accept_loop_never_raises (polls : nat) (s : server_state) :
  fst (tcp_server_loop polls s) = Return tt
  /\ tcp_server_socket (snd (tcp_server_loop polls s)) = None.
Proof. apply tcp_server_loop_returns. Qed.

(** X28.  The accept loop leaks no listening socket: if every socket created
    so far is closed or is the one the server holds, then when the loop
    returns every socket that was ever created has been closed, once each
    and in the order of creation, also those whose [bind] or [accept]
    failed. *)
Theorem X28_accept_loop_closes_every_socket (polls : nat) (s : server_state) :
  sockets_accounted s ->
  sockets_closed (snd (tcp_server_loop polls s))
  = seq 0 (sockets_created (snd (tcp_server_loop polls s))).
Proof.
  intros Hacc.
  assert (Hinv : sockets_accounted (snd (tcp_server_loop polls s))).
  { revert s Hacc. induction polls as [|polls IH]; intros s Hacc.
    - cbn [tcp_server_loop]. apply close_tcp_server_socket_spec. exact Hacc.
    - cbn [tcp_server_loop].
      pose proof (tcp_server_execute_accounted s Hacc) as H1.
      pose proof (tcp_server_execute_finishes s) as Hfin.
      destruct (tcp_server_execute s) as [[[]|e|] s1]; cbn [fst snd] in *.
      + destruct (server_threads s1); apply IH; exact H1.
      + set (s2 := server_logging ERROR ServerReportException _).
        assert (H2 : sockets_accounted s2) by exact H1.
        pose proof (close_tcp_server_socket_spec s2) as (Hr & _ & _ & _ & _ & _ & _ & H3).
        specialize (H3 H2).
        destruct (close_tcp_server_socket s2) as [[[]|e'|] s3];
          cbn [fst snd] in *; try discriminate.
        apply IH. exact H3.
      + contradiction. }
  destruct (tcp_server_loop_returns polls s) as [_ Hnone].
  unfold sockets_accounted in Hinv. rewrite Hnone in Hinv. exact Hinv.
Qed.

Lemma X28_witness :
  sockets_closed
    (snd (tcp_server_loop 5
            (stopped_server [] [Some OSError]
               [AcceptClient sample_address; AcceptFails OSError; AcceptTimeout]
               [] [Some OSError])))
  = seq 0 (sockets_created
             (snd (tcp_server_loop 5
                     (stopped_server [] [Some OSError]
                        [AcceptClient sample_address; AcceptFails OSError;
                         AcceptTimeout]
                        [] [Some OSError])))).
Proof.
  apply (X28_accept_loop_closes_every_socket 5).
  reflexivity.
Defined.

Lemma tcp_server_loop_step (polls : nat) (s : server_state) :
  create_results s = [] ->
  listen_results s = [] ->
  start_results s = [] ->
  exists s2,
    tcp_server_loop (S polls) s = tcp_server_loop polls s2
    /\ create_results s2 = []
    /\ listen_results s2 = []
    /\ start_results s2 = []
    /\ accept_results s2 = tl (accept_results s)
    /\ server_threads s2
       = server_threads s ++ accepted_clients (firstn 1 (accept_results s)).
Proof.
  destruct s as [so th cr cl lg crs lrs ars srs cls].
  cbn. intros -> -> ->.
  unfold tcp_server_execute. cbn.
  destruct so as [n|]; cbn; destruct ars as [|[|a|e] rs]; cbn.
  all: try (destruct th; eexists; (split; [reflexivity|]); cbn;
            repeat split; rewrite ?app_nil_r; reflexivity).
  all: try (destruct (th ++ [a]) as [|p l] eqn:E;
            [apply app_eq_nil in E; destruct E; discriminate|];
            eexists; (split; [reflexivity|]); cbn;
            repeat split; symmetry; exact E).
  all: unfold close_tcp_server_socket; cbn;
    destruct (next_result cls); eexists; (split; [reflexivity|]); cbn;
    repeat split; rewrite ?app_nil_r; reflexivity.
Qed.

Lemma accepted_clients_cons (rs : list accept_result) :
  accepted_clients rs = accepted_clients (firstn 1 rs) ++ accepted_clients (tl rs).
Proof. destruct rs as [|[|a|e] rs]; cbn; reflexivity. Qed.

Lemma tcp_server_loop_threads :
  forall (polls : nat) (s : server_state),
    create_results s = [] ->
    listen_results s = [] ->
    start_results s = [] ->
    (length (accept_results s) <= polls)%nat ->
    server_threads (snd (tcp_server_loop polls s))
    = server_threads s ++ accepted_clients (accept_results s).
Proof.
  induction polls as [|polls IH]; intros s Hc Hl Hs Hlen.
  - cbn [tcp_server_loop].
    destruct (close_tcp_server_socket_spec s) as (_ & _ & Ht & _).
    rewrite Ht. destruct (accept_results s); [|cbn in Hlen; lia].
    cbn. rewrite app_nil_r. reflexivity.
  - destruct (tcp_server_loop_step polls s Hc Hl Hs)
      as (s2 & -> & Hc2 & Hl2 & Hs2 & Ha2 & Ht2).
    rewrite IH; try assumption.
    + rewrite Ht2, Ha2, <- app_assoc, <- accepted_clients_cons. reflexivity.
    + rewrite Ha2. destruct (accept_results s); cbn in *; lia.
Qed.

(** X29.  A failure of [accept] does not keep later clients from being
    served: when creating the socket, listening and starting threads do not
    fail, then after as many turns of the loop as there are results of
    [accept], or more, one worker was added for every client that was
    accepted, in order, the failures and timeouts in between
    notwithstanding. *)
Theorem X29_every_accepted_client_gets_a_worker
        (polls : nat) (s : server_state) :
  create_results s = [] ->
  listen_results s = [] ->
  start_results s = [] ->
  (length (accept_results s) <= polls)%nat ->
  server_threads (snd (tcp_server_loop polls s))
  = server_threads s ++ accepted_clients (accept_results s).
Proof. apply tcp_server_loop_threads. Qed.

Lemma X29_witness :
  server_threads
    (snd (tcp_server_loop 4
            (stopped_server [] []
               [AcceptClient [49]; AcceptFails OSError; AcceptTimeout;
                AcceptClient [50]]
               [] [Some OSError])))
  = server_threads
      (stopped_server [] []
         [AcceptClient [49]; AcceptFails OSError; AcceptTimeout; AcceptClient [50]]
         [] [Some OSError])
    ++ accepted_clients
         (accept_results
            (stopped_server [] []
               [AcceptClient [49]; AcceptFails OSError; AcceptTimeout;
                AcceptClient [50]]
               [] [Some OSError])).
Proof.
  apply (X29_every_accepted_client_gets_a_worker 4); reflexivity.
Defined.
